(** * The HBNB console (console.py): a shallow embedding and its properties

    The interpreter is a [cmd.Cmd] subclass.  One input line is handled by
    [onecmd], which picks a [do_*] handler from the leading identifier of
    the line, or falls back to [default], the handler of the dotted
    notation [<class>.<verb>(<args>)].  The handlers read and mutate the
    dictionary returned by [storage.all()].

    Characters are the code points 0 to 255, as Rocq's 8-bit [ascii], and
    strings are [string]; Python's [str] is modelled on that fragment. *)

From Stdlib Require Import String Ascii List Bool Arith Lia.
Import ListNotations.

Local Open Scope list_scope.
Local Open Scope string_scope.

(** ** Python string methods used by the console *)

Module PyStr.

Definition dquote : ascii := ascii_of_nat 34.
Definition squote : ascii := ascii_of_nat 39.
Definition backslash : ascii := ascii_of_nat 92.

(** [s.split(sep)] for a one-character separator: every occurrence of
    [sep] cuts, so the result always has one piece more than there are
    separators (and is never empty). *)
Fixpoint split_on (sep : ascii) (s : string) : list string :=
  match s with
  | EmptyString => [EmptyString]
  | String a s' =>
      if Ascii.eqb a sep then EmptyString :: split_on sep s'
      else match split_on sep s' with
           | piece :: pieces => String a piece :: pieces
           | [] => [String a EmptyString]
           end
  end.

(** [sep.join(pieces)] for a one-character separator. *)
Fixpoint join (sep : ascii) (pieces : list string) : string :=
  match pieces with
  | [] => EmptyString
  | [p] => p
  | p :: ps => p ++ String sep (join sep ps)
  end.

(** [s.lstrip(chars)], [s.rstrip(chars)] and [s.strip(chars)], the set of
    characters given as a predicate. *)
Fixpoint lstrip_by (p : ascii -> bool) (s : string) : string :=
  match s with
  | EmptyString => EmptyString
  | String a s' => if p a then lstrip_by p s' else s
  end.

Fixpoint rstrip_by (p : ascii -> bool) (s : string) : string :=
  match s with
  | EmptyString => EmptyString
  | String a s' =>
      match rstrip_by p s' with
      | EmptyString => if p a then EmptyString else String a EmptyString
      | r => String a r
      end
  end.

Definition strip_by (p : ascii -> bool) (s : string) : string :=
  rstrip_by p (lstrip_by p s).

(** [s.strip(c)] with a one-character argument. *)
Definition strip (c : ascii) (s : string) : string :=
  strip_by (Ascii.eqb c) s.

(** [c.isspace()] on the code points 0 to 255: TAB..CR, FS..US, the
    space, NEL (U+0085) and the no-break space (U+00A0). *)
Definition isspace (c : ascii) : bool :=
  let n := nat_of_ascii c in
  (Nat.leb 9 n && Nat.leb n 13) || (Nat.leb 28 n && Nat.leb n 32)
  || Nat.eqb n 133 || Nat.eqb n 160.

(** [s.strip()] without argument. *)
Definition strip_ws (s : string) : string := strip_by isspace s.

(** [c in s] for a character. *)
Fixpoint mem (c : ascii) (s : string) : bool :=
  match s with
  | EmptyString => false
  | String a s' => Ascii.eqb a c || mem c s'
  end.

(** The longest prefix whose characters satisfy [p], and the rest. *)
Fixpoint span (p : ascii -> bool) (s : string) : string * string :=
  match s with
  | EmptyString => (EmptyString, EmptyString)
  | String a s' =>
      if p a then let (h, t) := span p s' in (String a h, t)
      else (EmptyString, s)
  end.

Definition nonempty (s : string) : bool :=
  match s with EmptyString => false | _ => true end.

End PyStr.

(** ** [shlex.split], the tokenizer of every handler

    [shlex.split(s)] runs a [shlex] lexer in POSIX mode with
    [whitespace_split] set and no comment characters.  The lexer is a state
    machine over the characters; its states are the ones of
    [shlex.read_token]: [' '] (between tokens), ['a'] (inside a word), a
    quote character (inside a quoted part), and the escape character. *)

Module Shlex.
Import PyStr.

Inductive escaped_from := FromWord | FromQuote (q : ascii).

Inductive lex_state :=
| Between                         (* state ' ' *)
| InWord                          (* state 'a' *)
| InQuote (q : ascii)             (* state is the opening quote *)
| InEscape (back : escaped_from). (* state is the escape character *)

Definition whitespace (c : ascii) : bool :=
  Ascii.eqb c " " || Ascii.eqb c (ascii_of_nat 9)
  || Ascii.eqb c (ascii_of_nat 13) || Ascii.eqb c (ascii_of_nat 10).

Definition quotes (c : ascii) : bool :=
  Ascii.eqb c squote || Ascii.eqb c dquote.

Definition escape (c : ascii) : bool := Ascii.eqb c backslash.

(** only the double quote lets the escape character act inside it *)
Definition escapedquotes (c : ascii) : bool := Ascii.eqb c dquote.

Definition snoc (token : string) (c : ascii) : string :=
  token ++ String c EmptyString.

(** The [ValueError] messages of the lexer. *)
Definition no_closing_quotation := "No closing quotation".
Definition no_escaped_character := "No escaped character".

(** What [read_token] hands out when it leaves its loop: the token,
    unless it is empty and nothing was quoted. *)
Definition emit (quoted : bool) (token : string) (rest : list string)
  : list string :=
  if nonempty token || quoted then token :: rest else rest.

Definition push (token : string) (r : string + list string)
  : string + list string :=
  match r with
  | inl e => inl e
  | inr toks => inr (token :: toks)
  end.

(** The lexer run over the remaining input: [quoted] and [token] are the
    locals of the current [read_token] call, [state] is kept between
    calls.  [inl msg] is a raised [ValueError]. *)
Fixpoint run (state : lex_state) (quoted : bool) (token : string)
         (input : string) : string + list string :=
  match input with
  | EmptyString =>
      match state with
      | Between | InWord => inr (emit quoted token [])
      | InQuote _ => inl no_closing_quotation
      | InEscape _ => inl no_escaped_character
      end
  | String c rest =>
      match state with
      | Between =>
          if whitespace c then
            if nonempty token || quoted
            then push token (run Between false EmptyString rest)
            else run Between quoted token rest
          else if escape c then run (InEscape FromWord) quoted token rest
          else if quotes c then run (InQuote c) quoted token rest
          else run InWord quoted (String c EmptyString) rest
      | InQuote q =>
          if Ascii.eqb c q then run InWord true token rest
          else if escape c && escapedquotes q
               then run (InEscape (FromQuote q)) true token rest
               else run (InQuote q) true (snoc token c) rest
      | InEscape back =>
          match back with
          | FromQuote q =>
              let token' :=
                if negb (Ascii.eqb c backslash) && negb (Ascii.eqb c q)
                then snoc token backslash else token in
              run (InQuote q) quoted (snoc token' c) rest
          | FromWord => run InWord quoted (snoc token c) rest
          end
      | InWord =>
          if whitespace c then
            if nonempty token || quoted
            then push token (run Between false EmptyString rest)
            else run Between quoted token rest
          else if quotes c then run (InQuote c) quoted token rest
          else if escape c then run (InEscape FromWord) quoted token rest
          else run InWord quoted (snoc token c) rest
      end
  end.

Definition split (s : string) : string + list string :=
  run Between false EmptyString s.

End Shlex.

Import PyStr.

(** ** The class registry and the domain objects *)

(** The seven classes the console imports. *)
Inductive cls := BaseModel | User | Place | State | City | Amenity | Review.

Definition cls_eqb (a b : cls) : bool :=
  match a, b with
  | BaseModel, BaseModel | User, User | Place, Place | State, State
  | City, City | Amenity, Amenity | Review, Review => true
  | _, _ => false
  end.

(** [C.__name__] *)
Definition cls_name (c : cls) : string :=
  match c with
  | BaseModel => "BaseModel" | User => "User" | Place => "Place"
  | State => "State" | City => "City" | Amenity => "Amenity"
  | Review => "Review"
  end.

(** [HBNBCommand.class_mapping], as the lookup [class_mapping.get(name)]. *)
Definition class_mapping (name : string) : option cls :=
  if name =? "BaseModel" then Some BaseModel
  else if name =? "User" then Some User
  else if name =? "Place" then Some Place
  else if name =? "State" then Some State
  else if name =? "City" then Some City
  else if name =? "Amenity" then Some Amenity
  else if name =? "Review" then Some Review
  else None.

(** The model classes live in the [models] package, which the console only
    imports.  The console uses an object through the operations below and
    nothing else; they are the interface the development is generic in.
    Reading [o.id] and [str(o)] never fails; [setattr] and [o.save()] can
    raise, which the [except Exception] clause of [do_update] reports. *)
Class Models := {
  obj : Type;
  (** [type(o)] *)
  obj_class : obj -> cls;
  (** the proper superclasses of a class among the registry (the tail of
      its method resolution order) *)
  ancestors : cls -> list cls;
  (** [o.id] *)
  obj_id : obj -> string;
  (** [str(o)] *)
  obj_str : obj -> string;
  (** [setattr(o, name, value)] with a string value: the object with the
      attribute set, or the message of the exception Python raises for a
      name it refuses *)
  setattr : obj -> string -> string -> string + obj;
  (** what [o.save()] does to [o] itself (the refreshed time stamp) before
      it calls [storage.save()], or the message of the exception when the
      call itself fails *)
  touch : obj -> string + obj;
  (** [C()], the identifier drawn from the n-th random draw *)
  construct : cls -> nat -> obj
}.

Section Console.

Context {M : Models}.

(** [isinstance(o, c)]: [c] is the class of [o] or one of its
    superclasses. *)
Definition isinstance (o : obj) (c : cls) : bool :=
  cls_eqb (obj_class o) c || existsb (cls_eqb c) (ancestors (obj_class o)).

(** *** The dictionary of [storage.all()]

    A Python [dict] keeps insertion order, and [show] and [all] depend on
    it, so the dictionary is an association list. *)
Definition objdict := list (string * obj).

(** [d.get(key)] *)
Fixpoint dict_get (key : string) (d : objdict) : option obj :=
  match d with
  | [] => None
  | (k, o) :: d' => if k =? key then Some o else dict_get key d'
  end.

(** [del d[key]] *)
Fixpoint dict_del (key : string) (d : objdict) : objdict :=
  match d with
  | [] => []
  | (k, o) :: d' => if k =? key then d' else (k, o) :: dict_del key d'
  end.

(** [d[key] = o]: in place when the key is there, at the end otherwise *)
Fixpoint dict_set (key : string) (o : obj) (d : objdict) : objdict :=
  match d with
  | [] => [(key, o)]
  | (k, o') :: d' =>
      if k =? key then (k, o) :: d' else (k, o') :: dict_set key o d'
  end.

(** [d.values()] *)
Definition dict_values (d : objdict) : list obj := map snd d.

(** [ "{}.{}".format(class_name, instance_id) ] *)
Definition key_of (class_name instance_id : string) : string :=
  class_name ++ "." ++ instance_id.

(** *** The state of the shell

    [objects] is the live dictionary of the storage engine, [file] the
    snapshot its last [save()] wrote and [saves] the number of [save()]
    calls so far; [draws] counts the identifiers drawn by constructors;
    [lastcmd] is the attribute of [cmd.Cmd]. *)
Record Shell := mkShell {
  objects : objdict;
  file : objdict;
  saves : nat;
  draws : nat;
  lastcmd : string
}.

Definition with_objects (d : objdict) (sh : Shell) : Shell :=
  mkShell d (file sh) (saves sh) (draws sh) (lastcmd sh).

(** Modelled from the spec: [storage.save()] of the storage engine, which
    the console only imports; it serializes the entire mapping, so the
    file then holds the live dictionary.  Failures of the write are not
    modelled. *)
Definition storage_save (sh : Shell) : Shell :=
  mkShell (objects sh) (objects sh) (S (saves sh)) (draws sh) (lastcmd sh).

Definition with_lastcmd (l : string) (sh : Shell) : Shell :=
  mkShell (objects sh) (file sh) (saves sh) (draws sh) l.

(** *** What a command does *)

(** One [print] call. *)
Inductive out :=
| Line (s : string)              (* print(s), s a string *)
| ListLine (l : list string)     (* print(l), l a list of strings *)
| IntLine (n : nat)              (* print(n), n an integer *)
| HelpEntry (command : string)   (* the command and its stripped docstring *)
| HelpDoc (command : string).    (* print(method.__doc__) *)

(** How a handler ends: it returns a false value (the loop reads the next
    line), it returns [True] (the loop stops), or an exception leaves it
    uncaught (and leaves [cmdloop] as well). *)
Inductive control := Continue | Stop | Uncaught (exception : string).

Record Outcome := mkOutcome {
  after : Shell;
  printed : list out;
  ctl : control
}.

Definition say (sh : Shell) (l : out) : Outcome := mkOutcome sh [l] Continue.
Definition silent (sh : Shell) : Outcome := mkOutcome sh [] Continue.
Definition value_error (sh : Shell) (msg : string) : Outcome :=
  mkOutcome sh [] (Uncaught msg).

Definition class_name_missing := Line "** class name missing **".
Definition instance_id_missing := Line "** instance id missing **".
Definition class_doesnt_exist := Line "** class doesn't exist **".
Definition no_instance_found := Line "** no instance found **".
Definition attribute_name_missing := Line "** attribute name missing **".
Definition value_missing := Line "** value missing **".
Definition invalid_quit :=
  Line "** Invalid command for quit. Type 'quit' to exit.".
Definition unknown_syntax (line : string) :=
  Line ("*** Unknown syntax: " ++ line).
(** [ "** {}".format(e) ], the line of the [except Exception] clauses *)
Definition exception_line (e : string) := Line ("** " ++ e).

(** The messages of the five error paths of [destroy] and [update]. *)
Definition mutation_errors : list out :=
  [class_name_missing; instance_id_missing; no_instance_found;
   attribute_name_missing; value_missing].

(** [not args or args[0] == ""] *)
Definition no_class_name (args : list string) : bool :=
  match args with
  | [] => true
  | a :: _ => a =? ""
  end.

(** *** The handlers *)

Definition do_quit (sh : Shell) (arg : string) : Outcome :=
  if strip_ws arg =? "" then mkOutcome sh [] Stop
  else say sh invalid_quit.

Definition do_EOF (sh : Shell) (arg : string) : Outcome :=
  mkOutcome sh [Line ""] Stop.

Definition emptyline (sh : Shell) : Outcome := silent sh.

Definition do_create (sh : Shell) (arg : string) : Outcome :=
  match Shlex.split arg with
  | inl msg => value_error sh msg
  | inr args =>
      if no_class_name args then say sh class_name_missing
      else
        let class_name := hd "" args in
        match class_mapping class_name with
        | None => say sh class_doesnt_exist
        | Some c =>
            (* the constructor registers the object with storage.new *)
            let new_instance := construct c (draws sh) in
            let key := key_of (cls_name (obj_class new_instance))
                              (obj_id new_instance) in
            let registered o :=
              mkShell (dict_set key o (objects sh)) (file sh)
                      (saves sh) (S (draws sh)) (lastcmd sh) in
            match touch new_instance with
            | inl e => say (registered new_instance) (exception_line e)
            | inr o =>
                mkOutcome (storage_save (registered o)) [Line (obj_id o)]
                          Continue
            end
        end
  end.

Definition do_show (sh : Shell) (arg : string) : Outcome :=
  match Shlex.split arg with
  | inl msg => value_error sh msg
  | inr args =>
      if no_class_name args then say sh class_name_missing
      else
        let class_name := hd "" args in
        if Nat.ltb (length args) 2 then say sh instance_id_missing
        else
          let instance_id := nth 1 args "" in
          match class_mapping class_name with
          | Some class_type =>
              let instance_objects :=
                filter (fun o => isinstance o class_type
                                 && (obj_id o =? instance_id))
                       (dict_values (objects sh)) in
              match instance_objects with
              | o :: _ => say sh (Line (obj_str o))
              | [] => say sh no_instance_found
              end
          | None => say sh class_doesnt_exist
          end
  end.

Definition do_destroy (sh : Shell) (arg : string) : Outcome :=
  match Shlex.split arg with
  | inl msg => value_error sh msg
  | inr args =>
      if no_class_name args then say sh class_name_missing
      else
        let class_name := hd "" args in
        if Nat.ltb (length args) 2 then say sh instance_id_missing
        else
          let instance_id := nth 1 args "" in
          let key := key_of class_name instance_id in
          match dict_get key (objects sh) with
          | None => say sh no_instance_found
          | Some _ =>
              silent (storage_save
                        (with_objects (dict_del key (objects sh)) sh))
          end
  end.

Definition do_all (sh : Shell) (arg : string) : Outcome :=
  match Shlex.split arg with
  | inl msg => value_error sh msg
  | inr args =>
      if no_class_name args
      then say sh (ListLine (map obj_str (dict_values (objects sh))))
      else
        let class_name := hd "" args in
        let obj_list :=
          map obj_str
              (filter (fun o => class_name =? cls_name (obj_class o))
                      (dict_values (objects sh))) in
        match obj_list with
        | [] => say sh class_doesnt_exist
        | _ => say sh (ListLine obj_list)
        end
  end.

Definition do_update (sh : Shell) (arg : string) : Outcome :=
  match Shlex.split arg with
  | inl msg => value_error sh msg
  | inr args =>
      if no_class_name args then say sh class_name_missing
      else
        let class_name := hd "" args in
        if Nat.ltb (length args) 2 then say sh instance_id_missing
        else
          let instance_id := nth 1 args "" in
          let key := key_of class_name instance_id in
          match dict_get key (objects sh) with
          | None => say sh no_instance_found
          | Some o =>
              if Nat.ltb (length args) 3 then say sh attribute_name_missing
              else
                let attribute_name := nth 2 args "" in
                if Nat.ltb (length args) 4 then say sh value_missing
                else
                  let value := nth 3 args "" in
                  (* the object is mutated where it sits in the dictionary *)
                  let holding o' :=
                    with_objects (dict_set key o' (objects sh)) sh in
                  match setattr o attribute_name value with
                  | inl e => say sh (exception_line e)
                  | inr o1 =>
                      match touch o1 with
                      | inl e => say (holding o1) (exception_line e)
                      | inr o2 => silent (storage_save (holding o2))
                      end
                  end
          end
  end.

Definition do_count (sh : Shell) (arg : string) : Outcome :=
  match Shlex.split arg with
  | inl msg => value_error sh msg
  | inr args =>
      if no_class_name args then say sh class_name_missing
      else
        let class_name := hd "" args in
        match class_mapping class_name with
        | None => say sh class_doesnt_exist
        | Some class_type =>
            let count :=
              length (filter (fun o => isinstance o class_type)
                             (dict_values (objects sh))) in
            say sh (IntLine count)
        end
  end.

(** The names [cmd] for which the shell object has a method [do_<cmd>]. *)
Definition has_command (cmd : string) : bool :=
  existsb (String.eqb cmd)
          ["EOF"; "all"; "count"; "create"; "destroy"; "help"; "quit";
           "show"; "update"].

Definition newline : string := String (ascii_of_nat 10) "".

Definition do_help (sh : Shell) (arg : string) : Outcome :=
  if negb (nonempty arg) then
    mkOutcome sh
      (Line (newline ++ "Documented commands (type help <topic>):")
       :: Line ("========================================" ++ newline)
       :: map HelpEntry
            ["EOF"; "all"; "count"; "create"; "destroy"; "help"; "quit";
             "show"; "update"])
      Continue
  else if has_command arg then
    mkOutcome sh [Line ("Help for " ++ arg ++ ":"); HelpDoc arg] Continue
  else say sh (Line ("** No help available for " ++ arg ++ " **")).

(** The argument string [default] builds for [do_update] from the text
    after [update(]; [None] is the [IndexError] of a missing piece. *)
Definition update_rewrite (class_arg text : string) : option string :=
  let args := split_on "," text in
  let id_arg := strip squote (hd "" args) in
  let id_arg := strip dquote id_arg in
  match nth_error args 1, nth_error args 2 with
  | Some a1, Some a2 =>
      let name_arg := strip "," a1 in
      let val_arg := a2 in
      let name_arg := strip " " name_arg in
      let name_arg := strip squote name_arg in
      let name_arg := strip dquote name_arg in
      let val_arg := strip " " val_arg in
      let val_arg := strip ")" val_arg in
      Some (class_arg ++ " " ++ id_arg ++ " " ++ name_arg ++ " " ++ val_arg)
  | _, _ => None
  end.

Definition default (sh : Shell) (line : string) : Outcome :=
  let args := split_on "." line in
  let class_arg := hd "" args in
  if Nat.eqb (length args) 1 then say sh (unknown_syntax line)
  else
    let args := split_on "(" (nth 1 args "") in
    let command := hd "" args in
    if command =? "all" then do_all sh class_arg
    else if command =? "count" then do_count sh class_arg
    else if command =? "show" then
      match nth_error args 1 with
      | None => say sh (unknown_syntax line)
      | Some a1 =>
          let args := split_on ")" a1 in
          let id_arg := hd "" args in
          let id_arg := strip squote id_arg in
          let id_arg := strip dquote id_arg in
          do_show sh (class_arg ++ " " ++ id_arg)
      end
    else if command =? "destroy" then
      match nth_error args 1 with
      | None => say sh (unknown_syntax line)
      | Some a1 =>
          let args := split_on ")" a1 in
          let id_arg := hd "" args in
          let id_arg := strip dquote id_arg in
          let id_arg := strip squote id_arg in
          do_destroy sh (class_arg ++ " " ++ id_arg)
      end
    else if command =? "update" then
      match nth_error args 1 with
      | None => say sh (unknown_syntax line)
      | Some a1 =>
          match update_rewrite class_arg a1 with
          | None => say sh (unknown_syntax line)
          | Some arg => do_update sh arg
          end
      end
    else say sh (unknown_syntax line).

(** *** The invariants of the mapping

    Every key is [<ClassName>.<id>] of the object it maps to, and no two
    live objects share an identifier. *)
Definition keys_match (sh : Shell) : Prop :=
  forall k o, In (k, o) (objects sh) ->
              k = key_of (cls_name (obj_class o)) (obj_id o).

Definition ids_unique (sh : Shell) : Prop :=
  forall o1 o2, In o1 (dict_values (objects sh)) ->
                In o2 (dict_values (objects sh)) ->
                obj_id o1 = obj_id o2 -> o1 = o2.

(** *** The command loop of [cmd.Cmd] *)

Definition identchars (c : ascii) : bool :=
  let n := nat_of_ascii c in
  (Nat.leb 97 n && Nat.leb n 122) || (Nat.leb 65 n && Nat.leb n 90)
  || (Nat.leb 48 n && Nat.leb n 57) || Ascii.eqb c "_".

(** [parseline]: the command word, its argument and the stripped line;
    no command word ([None]) for an empty line and for a line that
    starts with [!] (the shell has no [do_shell]). *)
Definition parseline (line : string)
  : option string * option string * string :=
  let line := strip_ws line in
  match line with
  | EmptyString => (None, None, line)
  | String c rest =>
      if Ascii.eqb c "!" then (None, None, line)
      else
        let line := if Ascii.eqb c "?" then "help " ++ rest else line in
        let (cmd, arg) := span identchars line in
        (Some cmd, Some (strip_ws arg), line)
  end.

Definition onecmd (sh : Shell) (line : string) : Outcome :=
  match parseline line with
  | (_, _, EmptyString) => emptyline sh
  | (None, _, line) => default sh line
  | (Some cmd, arg, line) =>
      let arg := match arg with Some a => a | None => "" end in
      let sh := with_lastcmd (if line =? "EOF" then "" else line) sh in
      if cmd =? "" then default sh line
      else if cmd =? "quit" then do_quit sh arg
      else if cmd =? "EOF" then do_EOF sh arg
      else if cmd =? "create" then do_create sh arg
      else if cmd =? "show" then do_show sh arg
      else if cmd =? "destroy" then do_destroy sh arg
      else if cmd =? "all" then do_all sh arg
      else if cmd =? "update" then do_update sh arg
      else if cmd =? "count" then do_count sh arg
      else if cmd =? "help" then do_help sh arg
      else default sh line
  end.

(** [cmdloop] over the lines the input still holds; at the end of the
    input the loop runs the line [EOF]. *)
Fixpoint cmdloop (sh : Shell) (input : list string) : Outcome :=
  match input with
  | [] => onecmd sh "EOF"
  | line :: input' =>
      let r := onecmd sh line in
      match ctl r with
      | Continue =>
          let r' := cmdloop (after r) input' in
          mkOutcome (after r') (printed r ++ printed r')%list (ctl r')
      | _ => r
      end
  end.

End Console.

(** The command word [default] reads off a line: the text between the
    first dot and the next parenthesis (or the second dot); [None] when the
    line has no dot. *)
Definition dotted_command (line : string) : option string :=
  let args := split_on "." line in
  if Nat.eqb (length args) 1 then None
  else Some (hd "" (split_on "(" (nth 1 args ""))).

(** The command words [default] dispatches on. *)
Definition dotted_verbs : list string :=
  ["all"; "count"; "show"; "destroy"; "update"].

(** A plain character: no white space, quote or escape character of the
    tokenizer and none of the characters [default] cuts a line at.  A plain
    word is a non-empty string of plain characters (identifiers in UUID
    form are plain words). *)
Definition plain (c : ascii) : bool :=
  negb (Shlex.whitespace c || Shlex.quotes c || Shlex.escape c
        || Ascii.eqb c "." || Ascii.eqb c "," || Ascii.eqb c "("
        || Ascii.eqb c ")").

Fixpoint all_chars (p : ascii -> bool) (s : string) : bool :=
  match s with
  | EmptyString => true
  | String a s' => p a && all_chars p s'
  end.

Definition plain_word (s : string) : bool := nonempty s && all_chars plain s.

(** a text between double quotes *)
Definition quoted (s : string) : string :=
  String dquote (s ++ String dquote "").

(** ** The wording of the specification, for comparison

    The definitions of this module follow the sentences of the
    specification, not the code. *)

Module Spec.

(** [s.split(sep, n)]: cut at the first [n] separators only. *)
Fixpoint split_first (n : nat) (sep : ascii) (s : string) : list string :=
  match n with
  | 0 => [s]
  | S n' =>
      match s with
      | EmptyString => [EmptyString]
      | String a s' =>
          if Ascii.eqb a sep then EmptyString :: split_first n' sep s'
          else match split_first n sep s' with
               | piece :: pieces => String a piece :: pieces
               | [] => [String a EmptyString]
               end
      end
  end.

Definition quote_or_space (c : ascii) : bool :=
  Ascii.eqb c squote || Ascii.eqb c dquote || Ascii.eqb c " ".

(** "split on the first two commas only, treating the remainder as the
    literal value, and strip surrounding quotes/whitespace from the id
    and attribute-name tokens": the three tokens of an [update] line. *)
Definition update_tokens (text : string)
  : option (string * string * string) :=
  match split_first 2 "," text with
  | [a0; a1; a2] =>
      Some (strip_by quote_or_space a0, strip_by quote_or_space a1,
            strip ")" (strip " " a2))
  | _ => None
  end.

Definition update_rewrite (class_arg text : string) : option string :=
  match update_tokens text with
  | Some (id_arg, name_arg, val_arg) =>
      Some (class_arg ++ " " ++ id_arg ++ " " ++ name_arg ++ " " ++ val_arg)
  | None => None
  end.

(** the command verbs of the dispatcher *)
Definition verbs : list string :=
  ["quit"; "EOF"; "help"; "create"; "show"; "destroy"; "all"; "update";
   "count"].

(** a verb-first command: the line starts with one of the verbs, followed
    by nothing or by a character that is not part of a word *)
Definition verb_first (line : string) : bool :=
  existsb (String.eqb (fst (span identchars (strip_ws line)))) verbs.

(** the dotted form [<ClassName>.<verb>(<args>)] *)
Definition dotted_form (line : string) : Prop :=
  exists class_arg verb args,
    line = class_arg ++ "." ++ verb ++ "(" ++ args ++ ")".

End Spec.

(** ** A concrete model package: attribute bags *)

Module Bag.

(** Modelled from the spec: the classes of the [models] package, which is
    not part of the console.  An object is a plain attribute bag with an
    identifier, the two time stamps and the attributes [update] has set;
    every class other than [BaseModel] derives from [BaseModel]; the string
    form is [[<ClassName>] (<id>) <attributes>]. *)
Record bag := mkBag {
  bag_class : cls;
  bag_id : string;
  created_at : nat;
  updated_at : nat;
  extra : list (string * string)
}.

Fixpoint set_extra (name value : string) (l : list (string * string))
  : list (string * string) :=
  match l with
  | [] => [(name, value)]
  | (n, v) :: l' =>
      if n =? name then (n, value) :: l' else (n, v) :: set_extra name value l'
  end.

(** Python refuses a string for [__class__] and for [__dict__]. *)
Definition bag_setattr (o : bag) (name value : string) : string + bag :=
  if name =? "__class__"
  then inl "__class__ must be set to a class, not 'str' object"
  else if name =? "__dict__"
  then inl "__dict__ must be set to a dictionary, not a 'str'"
  else if name =? "id"
  then inr (mkBag (bag_class o) value (created_at o) (updated_at o) (extra o))
  else inr (mkBag (bag_class o) (bag_id o) (created_at o) (updated_at o)
                  (set_extra name value (extra o))).

(** An attribute named [save] hides the method: the call then fails. *)
Definition bag_touch (o : bag) : string + bag :=
  if existsb (fun '(n, _) => n =? "save") (extra o)
  then inl "'str' object is not callable"
  else inr (mkBag (bag_class o) (bag_id o) (created_at o)
                  (S (updated_at o)) (extra o)).

Definition bag_ancestors (c : cls) : list cls :=
  match c with
  | BaseModel => []
  | _ => [BaseModel]
  end.

Definition render (l : list (string * string)) : string :=
  "{" ++ String.concat ", " (map (fun '(n, v) => n ++ ": " ++ v) l) ++ "}".

Definition bag_str (o : bag) : string :=
  "[" ++ cls_name (bag_class o) ++ "] (" ++ bag_id o ++ ") "
      ++ render (("id", bag_id o) :: extra o).

Definition bag_construct (c : cls) (draw : nat) : bag :=
  mkBag c (String.concat "" (repeat "x" (S draw))) 0 0 [].

#[export] Instance bags : Models := {|
  obj := bag;
  obj_class := bag_class;
  ancestors := bag_ancestors;
  obj_id := bag_id;
  obj_str := bag_str;
  setattr := bag_setattr;
  touch := bag_touch;
  construct := bag_construct
|}.

(** A shell with the given live objects, nothing saved yet. *)
Definition shell_of (d : list (string * bag)) : Shell :=
  mkShell d [] 0 0 "".

Definition a_user (id : string) : bag := mkBag User id 0 0 [].
Definition a_base (id : string) : bag := mkBag BaseModel id 0 0 [].

(** One user and one plain object. *)
Definition two_objects : Shell :=
  shell_of [("User.1", a_user "1"); ("BaseModel.2", a_base "2")].

End Bag.

(** ** What a command can do to the shell *)

Section Effects.

Context {M : Models}.

(** No two entries of the mapping share a key, as in a Python [dict]. *)
Definition keys_unique (sh : Shell) : Prop := NoDup (map fst (objects sh)).

(** One deletion or one assignment in the dictionary. *)
Definition one_change (d d' : objdict) : Prop :=
  (exists k, d' = dict_del k d) \/ (exists k o, d' = dict_set k o d).

(** The four ways a handler call on the shell [sh] can end, other than by
    stopping the loop: the tokenizer raised and nothing happened; the shell
    is as before; the dictionary was changed once and saved; the
    dictionary was changed once, then an exception was reported and
    nothing was saved. *)
Inductive effect (sh : Shell) (r : Outcome) : Prop :=
| Crashed (msg : string) :
    In msg [Shlex.no_closing_quotation; Shlex.no_escaped_character] ->
    r = mkOutcome sh [] (Uncaught msg) -> effect sh r
| Unchanged :
    after r = sh -> ctl r = Continue -> effect sh r
| Saved :
    ctl r = Continue ->
    one_change (objects sh) (objects (after r)) ->
    file (after r) = objects (after r) ->
    saves (after r) = S (saves sh) ->
    lastcmd (after r) = lastcmd sh -> effect sh r
| Unsaved (e : string) :
    ctl r = Continue ->
    printed r = [exception_line e] ->
    one_change (objects sh) (objects (after r)) ->
    file (after r) = file sh ->
    saves (after r) = saves sh ->
    lastcmd (after r) = lastcmd sh -> effect sh r.

End Effects.

(** No quote and no escape character of the tokenizer. *)
Definition no_quoting (s : string) : bool :=
  all_chars (fun c => negb (Shlex.quotes c || Shlex.escape c)) s.

(** * Properties *)

(** ** Facts about the string methods *)

Module PyStrFacts.

Lemma mem_app (c : ascii) (a b : string) :
  mem c (a ++ b) = mem c a || mem c b.
Proof.
  induction a as [|x a IH]; simpl; [reflexivity|].
  rewrite IH. now rewrite orb_assoc.
Qed.

Lemma split_on_not_nil (c : ascii) (s : string) : split_on c s <> [].
Proof.
  destruct s as [|a s]; simpl; [discriminate|].
  destruct (Ascii.eqb a c); [discriminate|].
  destruct (split_on c s); discriminate.
Qed.

(** A string without the separator is one piece. *)
Lemma split_on_absent (c : ascii) (s : string) :
  mem c s = false -> split_on c s = [s].
Proof.
  induction s as [|a s IH]; simpl; [reflexivity|].
  intros H. apply orb_false_iff in H as [Ha Hs].
  rewrite Ha, (IH Hs). reflexivity.
Qed.

(** The first piece ends at the first separator. *)
Lemma split_on_first (c : ascii) (a b : string) :
  mem c a = false ->
  split_on c (a ++ String c b) = a :: split_on c b.
Proof.
  induction a as [|x a IH]; simpl; intros H.
  - now rewrite Ascii.eqb_refl.
  - apply orb_false_iff in H as [Hx Ha].
    rewrite Hx, (IH Ha). reflexivity.
Qed.

Lemma lstrip_absent (p : ascii -> bool) (s : string) :
  (forall c, mem c s = true -> p c = false) -> lstrip_by p s = s.
Proof.
  destruct s as [|a s]; simpl; [reflexivity|].
  intros H. rewrite (H a); [reflexivity|].
  now rewrite Ascii.eqb_refl.
Qed.

Lemma rstrip_absent (p : ascii -> bool) (s : string) :
  (forall c, mem c s = true -> p c = false) -> rstrip_by p s = s.
Proof.
  induction s as [|a s IH]; simpl; [reflexivity|].
  intros H. rewrite IH.
  - destruct s; [|reflexivity].
    rewrite (H a); [reflexivity|]. now rewrite Ascii.eqb_refl.
  - intros c Hc. apply H. rewrite Hc. apply orb_true_r.
Qed.

(** Stripping a character the string does not hold changes nothing. *)
Lemma strip_absent (c : ascii) (s : string) :
  mem c s = false -> strip c s = s.
Proof.
  intros H. unfold strip, strip_by.
  assert (Hp : forall x, mem x s = true -> Ascii.eqb c x = false).
  { intros x Hx. destruct (Ascii.eqb_spec c x) as [->|]; congruence. }
  rewrite (lstrip_absent _ _ Hp). now apply rstrip_absent.
Qed.

(** Splitting undoes joining when no piece holds the separator. *)
Lemma split_on_join (c : ascii) (pieces : list string) :
  pieces <> [] ->
  Forall (fun p => mem c p = false) pieces ->
  split_on c (join c pieces) = pieces.
Proof.
  induction pieces as [|p ps IH]; [congruence|].
  intros _ Hall. inversion Hall as [|? ? Hp Hps]; subst.
  destruct ps as [|q ps].
  - simpl. now apply split_on_absent.
  - change (join c (p :: q :: ps)) with (p ++ String c (join c (q :: ps))).
    rewrite split_on_first by exact Hp.
    rewrite IH; [reflexivity|discriminate|exact Hps].
Qed.

Lemma append_nil_r (s : string) : s ++ "" = s.
Proof. induction s as [|a s IH]; simpl; [reflexivity|now rewrite IH]. Qed.

Lemma append_snoc (t w : string) (c : ascii) :
  (t ++ String c "") ++ w = t ++ String c w.
Proof. induction t as [|a t IH]; simpl; [reflexivity|now rewrite IH]. Qed.

(** A last character outside the set stops [rstrip]. *)
Lemma rstrip_keeps_last (p : ascii -> bool) (s : string) (c : ascii) :
  p c = false -> rstrip_by p (s ++ String c "") = s ++ String c "".
Proof.
  intros Hc. induction s as [|a s IH]; simpl.
  - now rewrite Hc.
  - rewrite IH. now destruct s.
Qed.

(** A last character of the set goes. *)
Lemma rstrip_drops_last (p : ascii -> bool) (s : string) (c : ascii) :
  p c = true -> rstrip_by p (s ++ String c "") = rstrip_by p s.
Proof.
  intros Hc. induction s as [|a s IH]; simpl.
  - now rewrite Hc.
  - now rewrite IH.
Qed.

Lemma all_chars_mem (p : ascii -> bool) (s : string) (c : ascii) :
  all_chars p s = true -> p c = false -> mem c s = false.
Proof.
  intros Hs Hc. induction s as [|a s IH]; simpl; [reflexivity|].
  simpl in Hs. apply andb_true_iff in Hs as [Ha Hs].
  rewrite (IH Hs), orb_false_r.
  destruct (Ascii.eqb_spec a c) as [->|]; congruence.
Qed.

(** The quotes around a text without quotes are what [strip] removes. *)
Lemma strip_quoted (s : string) :
  mem dquote s = false -> strip dquote (quoted s) = s.
Proof.
  intros H. destruct s as [|a s]; [reflexivity|].
  unfold strip, strip_by, quoted.
  cbn [lstrip_by]. rewrite Ascii.eqb_refl.
  cbn [append lstrip_by].
  destruct (Ascii.eqb_spec dquote a) as [<-|_].
  { cbn in H. rewrite ?Ascii.eqb_refl in H. discriminate H. }
  change (String a (s ++ String dquote ""))
    with (String a s ++ String dquote "").
  rewrite rstrip_drops_last by apply Ascii.eqb_refl.
  apply rstrip_absent. intros x Hx.
  destruct (Ascii.eqb_spec dquote x) as [<-|]; congruence.
Qed.

Lemma mem_quoted (c : ascii) (s : string) :
  Ascii.eqb dquote c = false -> mem c (quoted s) = mem c s.
Proof.
  intros H. unfold quoted. cbn [mem]. rewrite H, mem_app. cbn [mem orb].
  now rewrite H, !orb_false_r.
Qed.

(** Stripping another character leaves a quoted text alone. *)
Lemma strip_other_quoted (c : ascii) (s : string) :
  Ascii.eqb c dquote = false -> strip c (quoted s) = quoted s.
Proof.
  intros H. unfold strip, strip_by, quoted. cbn [lstrip_by]. rewrite H.
  change (String dquote (s ++ String dquote ""))
    with (String dquote s ++ String dquote "").
  now apply rstrip_keeps_last.
Qed.

Lemma plain_word_mem (w : string) (c : ascii) :
  plain_word w = true -> plain c = false -> mem c w = false.
Proof.
  unfold plain_word. intros Hw Hc. apply andb_true_iff in Hw as [_ Hw].
  now apply (all_chars_mem plain).
Qed.

End PyStrFacts.

(** ** Facts about the tokenizer: plain words and one quoted word *)

Module ShlexFacts.

Lemma plain_inv (c : ascii) :
  plain c = true ->
  Shlex.whitespace c = false /\ Shlex.quotes c = false
  /\ Shlex.escape c = false.
Proof.
  unfold plain. intros H. apply negb_true_iff in H.
  repeat (apply orb_false_iff in H as [H ?]).
  repeat split; try assumption.
  unfold Shlex.whitespace. now repeat (apply orb_false_iff; split).
Qed.

(** Inside a word, plain characters are appended to the token. *)
Lemma run_word (quoted : bool) (w token rest : string) :
  all_chars plain w = true ->
  Shlex.run Shlex.InWord quoted token (w ++ rest)
  = Shlex.run Shlex.InWord quoted (token ++ w) rest.
Proof.
  revert token. induction w as [|c w IH]; intros token Hw.
  - now rewrite PyStrFacts.append_nil_r.
  - simpl in Hw. apply andb_true_iff in Hw as [Hc Hw].
    destruct (plain_inv c Hc) as (Hws & Hq & He).
    cbn [append Shlex.run]. rewrite Hws, Hq, He.
    rewrite (IH _ Hw). unfold Shlex.snoc.
    now rewrite PyStrFacts.append_snoc.
Qed.

(** Between tokens, a plain word opens a token. *)
Lemma run_between_word (w rest : string) :
  plain_word w = true ->
  Shlex.run Shlex.Between false "" (w ++ rest)
  = Shlex.run Shlex.InWord false w rest.
Proof.
  unfold plain_word. destruct w as [|c w]; [discriminate|].
  cbn [nonempty andb all_chars]. intros Hw.
  apply andb_true_iff in Hw as [Hc Hw].
  destruct (plain_inv c Hc) as (Hws & Hq & He).
  cbn [append Shlex.run]. rewrite Hws, Hq, He.
  now rewrite (run_word false w _ rest Hw).
Qed.

(** A plain word followed by a space is one token. *)
Lemma word_then_space (w rest : string) :
  plain_word w = true ->
  Shlex.run Shlex.Between false "" (w ++ String " " rest)
  = Shlex.push w (Shlex.run Shlex.Between false "" rest).
Proof.
  intros Hw. rewrite (run_between_word _ _ Hw).
  unfold plain_word in Hw. apply andb_true_iff in Hw as [Hne _].
  cbn. now rewrite Hne.
Qed.

(** A plain word at the end of the input is the last token. *)
Lemma word_at_end (w : string) :
  plain_word w = true ->
  Shlex.run Shlex.Between false "" w = inr [w].
Proof.
  intros Hw. rewrite <- (PyStrFacts.append_nil_r w) at 1.
  rewrite (run_between_word _ _ Hw).
  unfold plain_word in Hw. apply andb_true_iff in Hw as [Hne _].
  cbn. unfold Shlex.emit. now rewrite Hne.
Qed.

(** Inside double quotes, plain characters are appended up to the closing
    quote. *)
Lemma run_quote (quoted : bool) (w token rest : string) :
  all_chars plain w = true ->
  Shlex.run (Shlex.InQuote dquote) quoted token (w ++ String dquote rest)
  = Shlex.run Shlex.InWord true (token ++ w) rest.
Proof.
  revert quoted token. induction w as [|c w IH]; intros quoted token Hw.
  - rewrite PyStrFacts.append_nil_r. cbn [append Shlex.run].
    now rewrite Ascii.eqb_refl.
  - simpl in Hw. apply andb_true_iff in Hw as [Hc Hw].
    destruct (plain_inv c Hc) as (Hws & Hq & He).
    cbn [append Shlex.run].
    assert (Hd : Ascii.eqb c dquote = false).
    { unfold Shlex.quotes in Hq. now apply orb_false_iff in Hq as [_ Hq]. }
    rewrite Hd, He. cbn [andb].
    rewrite (IH _ _ Hw). unfold Shlex.snoc.
    now rewrite PyStrFacts.append_snoc.
Qed.

(** A quoted plain word at the end of the input is the last token, without
    its quotes. *)
Lemma quoted_word_at_end (w : string) :
  all_chars plain w = true ->
  Shlex.run Shlex.Between false "" (quoted w) = inr [w].
Proof.
  intros Hw. unfold quoted. cbn [Shlex.run].
  change (Shlex.whitespace dquote) with false.
  change (Shlex.escape dquote) with false.
  change (Shlex.quotes dquote) with true. cbn iota.
  rewrite (run_quote false w "" "" Hw). cbn.
  unfold Shlex.emit. now rewrite orb_true_r.
Qed.

(** Four plain words separated by spaces are four tokens, whether or not
    the last one stands between double quotes. *)
Lemma split_four_words (a b c d : string) :
  plain_word a = true -> plain_word b = true -> plain_word c = true ->
  plain_word d = true ->
  Shlex.split (a ++ " " ++ b ++ " " ++ c ++ " " ++ d) = inr [a; b; c; d]
  /\ Shlex.split (a ++ " " ++ b ++ " " ++ c ++ " " ++ quoted d)
     = inr [a; b; c; d].
Proof.
  intros Ha Hb Hc Hd. unfold Shlex.split.
  cbn [append].
  rewrite !word_then_space by assumption.
  rewrite (word_at_end d Hd).
  unfold plain_word in Hd. apply andb_true_iff in Hd as [_ Hd].
  now rewrite (quoted_word_at_end d Hd).
Qed.

Lemma split_two_words (a b : string) :
  plain_word a = true -> plain_word b = true ->
  Shlex.split (a ++ " " ++ b) = inr [a; b].
Proof.
  intros Ha Hb. unfold Shlex.split.
  change (" " ++ b) with (String " " b).
  rewrite word_then_space by assumption.
  now rewrite (word_at_end b Hb).
Qed.

End ShlexFacts.

(** ** Facts about the handlers, for any model package *)

Section ConsoleFacts.

Context {M : Models}.

Lemma filter_or_length {A : Type} (f g : A -> bool) (l : list A) :
  length (filter (fun x => f x || g x) l)
  = (length (filter f l)
     + length (filter (fun x => negb (f x) && g x) l))%nat.
Proof.
  induction l as [|x l IH]; simpl; [reflexivity|].
  destruct (f x); simpl; [now rewrite IH|].
  destruct (g x); simpl; rewrite IH; lia.
Qed.

(** A handler that continues hands the shell on to the next line. *)
Lemma cmdloop_continue (sh : Shell) (line : string) (input : list string) :
  ctl (onecmd sh line) = Continue ->
  cmdloop sh (line :: input)
  = let r := cmdloop (after (onecmd sh line)) input in
    mkOutcome (after r) (printed (onecmd sh line) ++ printed r)%list (ctl r).
Proof.
  intros H. simpl. now rewrite H.
Qed.

(** C10: an empty input line is a no-op.  Whatever the previous command
    [prev] was, [onecmd] on the empty line prints nothing, leaves the
    whole shell (the object mapping, the saved file, the number of saves
    and [lastcmd]) as it was and does not stop the loop, which goes on
    with the next line exactly as if the empty line had not been there. *)
Theorem C10_empty_line_noop (sh : Shell) (prev : string) :
  let sh' := with_lastcmd prev sh in
  onecmd sh' "" = mkOutcome sh' [] Continue
  /\ emptyline sh' = mkOutcome sh' [] Continue
  /\ forall input, cmdloop sh' ("" :: input) = cmdloop sh' input.
Proof.
  intros sh'. repeat split.
  intros input. rewrite cmdloop_continue by reflexivity.
  simpl. now destruct (cmdloop sh' input).
Qed.

(** An error path: one of the five messages, and nothing changed. *)
Ltac error_path :=
  split; [eexists; split; [|reflexivity]; simpl; tauto|repeat split].

(** C9: on each of the error paths of [destroy] and [update] (class name
    missing, id missing, object not found, and for [update] attribute name
    missing and value missing) the handler prints the message of the path
    and leaves the shell as it was: the object mapping is unchanged, the
    saved file is unchanged and [save] was not called.  Off these paths
    [destroy] does delete the key and save. *)
Theorem C9_errors_leave_state (sh : Shell) (arg : string)
        (args : list string) :
  Shlex.split arg = inr args ->
  let key := key_of (hd "" args) (nth 1 args "") in
  let missing := dict_get key (objects sh) = None in
  (no_class_name args = true \/ (length args < 2)%nat \/ missing ->
     (exists e, In e mutation_errors /\ printed (do_destroy sh arg) = [e])
     /\ after (do_destroy sh arg) = sh
     /\ objects (after (do_destroy sh arg)) = objects sh
     /\ file (after (do_destroy sh arg)) = file sh
     /\ saves (after (do_destroy sh arg)) = saves sh)
  /\ (no_class_name args = true \/ (length args < 2)%nat \/ missing
      \/ (length args < 4)%nat ->
     (exists e, In e mutation_errors /\ printed (do_update sh arg) = [e])
     /\ after (do_update sh arg) = sh
     /\ objects (after (do_update sh arg)) = objects sh
     /\ file (after (do_update sh arg)) = file sh
     /\ saves (after (do_update sh arg)) = saves sh)
  /\ (no_class_name args = false -> (2 <= length args)%nat -> ~ missing ->
     printed (do_destroy sh arg) = []
     /\ objects (after (do_destroy sh arg)) = dict_del key (objects sh)
     /\ saves (after (do_destroy sh arg)) = S (saves sh)).
Proof.
  intros Hsplit key missing. unfold do_destroy, do_update. rewrite Hsplit.
  fold key. unfold mutation_errors.
  refine (conj _ (conj _ _)).
  - intros H.
    destruct (no_class_name args); simpl; [now error_path|].
    destruct (Nat.ltb_spec (length args) 2); simpl; [now error_path|].
    destruct (dict_get key (objects sh)) eqn:E; simpl; [|now error_path].
    destruct H as [H|[H|H]]; [discriminate|lia|].
    unfold missing in H. congruence.
  - intros H.
    destruct (no_class_name args); simpl; [now error_path|].
    destruct (Nat.ltb_spec (length args) 2); simpl; [now error_path|].
    destruct (dict_get key (objects sh)) eqn:E; simpl; [|now error_path].
    destruct (Nat.ltb_spec (length args) 3); simpl; [now error_path|].
    destruct (Nat.ltb_spec (length args) 4); simpl; [now error_path|].
    destruct H as [H|[H|[H|H]]]; [discriminate|lia| |lia].
    unfold missing in H. congruence.
  - intros -> Hlen Hfound. apply Nat.ltb_ge in Hlen. rewrite Hlen.
    destruct (dict_get key (objects sh)); [now simpl|].
    now elim Hfound.
Qed.

(** C3: the order of the checks of [show] and [update].  With the
    tokens [args] of the argument string: a missing class name is
    reported whatever else is missing; then a missing id, whatever the
    mapping holds; then, for [update], an object that is not found,
    whether or not an attribute name and a value are given; only then
    the missing attribute name, and last the missing value.  [show]
    without any argument, called as a handler or typed as the line
    [show], reports the missing class name. *)
Theorem C3_error_order (sh : Shell) (arg : string) (args : list string) :
  Shlex.split arg = inr args ->
  (no_class_name args = true ->
     printed (do_show sh arg) = [class_name_missing]
     /\ printed (do_update sh arg) = [class_name_missing])
  /\ (no_class_name args = false -> (length args < 2)%nat ->
     printed (do_show sh arg) = [instance_id_missing]
     /\ printed (do_update sh arg) = [instance_id_missing])
  /\ (no_class_name args = false -> (2 <= length args)%nat ->
     forall c, class_mapping (hd "" args) = Some c ->
     filter (fun o => isinstance o c && (obj_id o =? nth 1 args ""))
            (dict_values (objects sh)) = [] ->
     printed (do_show sh arg) = [no_instance_found])
  /\ (no_class_name args = false -> (2 <= length args)%nat ->
     dict_get (key_of (hd "" args) (nth 1 args "")) (objects sh) = None ->
     printed (do_update sh arg) = [no_instance_found])
  /\ (no_class_name args = false -> length args = 2%nat ->
     dict_get (key_of (hd "" args) (nth 1 args "")) (objects sh) <> None ->
     printed (do_update sh arg) = [attribute_name_missing])
  /\ (no_class_name args = false -> length args = 3%nat ->
     dict_get (key_of (hd "" args) (nth 1 args "")) (objects sh) <> None ->
     printed (do_update sh arg) = [value_missing])
  /\ printed (do_show sh "") = [class_name_missing]
  /\ printed (onecmd sh "show") = [class_name_missing].
Proof.
  intros Hsplit. unfold do_show, do_update. rewrite Hsplit.
  refine (conj _ (conj _ (conj _ (conj _ (conj _ (conj _ (conj _ _))))))).
  - now intros ->.
  - intros -> Hlen. apply Nat.ltb_lt in Hlen. now rewrite Hlen.
  - intros -> Hlen c Hc Hnone. apply Nat.ltb_ge in Hlen.
    now rewrite Hlen, Hc, Hnone.
  - intros -> Hlen Hnone. apply Nat.ltb_ge in Hlen.
    now rewrite Hlen, Hnone.
  - intros -> Hlen Hsome. rewrite Hlen. simpl.
    destruct (dict_get _ (objects sh)); [reflexivity|congruence].
  - intros -> Hlen Hsome. rewrite Hlen. simpl.
    destruct (dict_get _ (objects sh)); [reflexivity|congruence].
  - reflexivity.
  - reflexivity.
Qed.

(** C4: [all <name>] collects the string forms of the live objects whose
    class name is exactly [name], in the order of the mapping, and prints
    the class-does-not-exist message if and only if that list is empty;
    the class registry plays no part, and the shell is left as it was. *)
Theorem C4_all_filters_by_name (sh : Shell) (arg : string)
        (args : list string) :
  Shlex.split arg = inr args ->
  no_class_name args = false ->
  let name := hd "" args in
  let matching :=
    filter (fun o => name =? cls_name (obj_class o))
           (dict_values (objects sh)) in
  (forall o, In o matching
             <-> In o (dict_values (objects sh))
                 /\ cls_name (obj_class o) = name)
  /\ (matching <> [] ->
      printed (do_all sh arg) = [ListLine (map obj_str matching)])
  /\ (printed (do_all sh arg) = [class_doesnt_exist] <-> matching = [])
  /\ after (do_all sh arg) = sh
  /\ ctl (do_all sh arg) = Continue.
Proof.
  intros Hsplit Hname name matching.
  unfold do_all. rewrite Hsplit, Hname.
  fold name. fold matching.
  split; [|destruct matching as [|o l] eqn:E; simpl].
  - intros o. unfold matching. rewrite filter_In.
    split; intros [Hin Heq]; split; trivial.
    + apply String.eqb_eq in Heq. now symmetry.
    + apply String.eqb_eq. now symmetry.
  - repeat split; congruence.
  - repeat split; try congruence; discriminate.
Qed.

(** C6: [count <name>] prints, for a recognized class, the number of live
    objects that are instances of it in the sense of [isinstance], that
    is the objects of the class itself plus the objects of its subclasses;
    for a name outside the registry it prints the class-does-not-exist
    message, and without a class name the class-name-missing message. *)
Theorem C6_count_is_polymorphic (sh : Shell) (arg : string)
        (args : list string) :
  Shlex.split arg = inr args ->
  (no_class_name args = true ->
     printed (do_count sh arg) = [class_name_missing])
  /\ (no_class_name args = false -> class_mapping (hd "" args) = None ->
     printed (do_count sh arg) = [class_doesnt_exist])
  /\ (no_class_name args = false ->
     forall c, class_mapping (hd "" args) = Some c ->
     let live := dict_values (objects sh) in
     let exact := filter (fun o => cls_eqb (obj_class o) c) live in
     let derived :=
       filter (fun o => negb (cls_eqb (obj_class o) c)
                        && existsb (cls_eqb c) (ancestors (obj_class o)))
              live in
     printed (do_count sh arg)
     = [IntLine (length (filter (fun o => isinstance o c) live))]
     /\ length (filter (fun o => isinstance o c) live)
        = (length exact + length derived)%nat).
Proof.
  intros Hsplit. unfold do_count. rewrite Hsplit.
  refine (conj _ (conj _ _)).
  - now intros ->.
  - intros -> Hc. now rewrite Hc.
  - intros -> c Hc. cbv zeta. rewrite Hc. split; [reflexivity|].
    unfold isinstance. apply filter_or_length.
Qed.

Lemma cls_eqb_refl (c : cls) : cls_eqb c c = true.
Proof. now destruct c. Qed.

Lemma class_mapping_name (c : cls) : class_mapping (cls_name c) = Some c.
Proof. now destruct c. Qed.

Lemma cls_name_nonempty (c : cls) (rest : list string) :
  no_class_name (cls_name c :: rest) = false.
Proof. now destruct c. Qed.

(** A key determines the class and the identifier it was built from. *)
Lemma key_of_inj (c c' : cls) (i i' : string) :
  key_of (cls_name c) i = key_of (cls_name c') i' -> c = c' /\ i = i'.
Proof.
  unfold key_of.
  destruct c, c'; cbn; intros H; try discriminate H;
    injection H as ->; now split.
Qed.

Lemma dict_get_In (key : string) (d : objdict) (o : obj) :
  dict_get key d = Some o -> In (key, o) d.
Proof.
  induction d as [|[k o'] d IH]; simpl; [discriminate|].
  destruct (String.eqb_spec k key) as [->|Hne].
  - intros [= ->]. now left.
  - intros H. right. now apply IH.
Qed.

Lemma In_dict_values (k : string) (o : obj) (d : objdict) :
  In (k, o) d -> In o (dict_values d).
Proof. intros H. apply (in_map snd) in H. exact H. Qed.

(** With unique identifiers the scan of [show] stops at the one object
    that carries the identifier. *)
Lemma show_scan_unique (sh : Shell) (c : cls) (o : obj) :
  ids_unique sh ->
  In o (dict_values (objects sh)) ->
  isinstance o c = true ->
  exists l,
    filter (fun o' => isinstance o' c && (obj_id o' =? obj_id o))
           (dict_values (objects sh)) = o :: l.
Proof.
  intros Huniq Hin Hinst.
  destruct (filter _ (dict_values (objects sh))) as [|o' l] eqn:E.
  - assert (Ho : In o []).
    { rewrite <- E. apply filter_In. split; [exact Hin|].
      now rewrite Hinst, String.eqb_refl. }
    destruct Ho.
  - assert (Ho' : In o' (o' :: l)) by now left.
    rewrite <- E in Ho'. apply filter_In in Ho' as [Hin' Hp].
    apply andb_true_iff in Hp as [_ Hid]. apply String.eqb_eq in Hid.
    exists l. f_equal. now apply Huniq.
Qed.

(** C8: [show] finds its object by a scan of the live objects with
    [isinstance] and the identifier, [destroy] and [update] by the key
    [<ClassName>.<id>] alone.  So for a live object [o] of a proper
    subclass of the class [c] that is named, in a mapping that satisfies
    its invariants, [show] prints [o] while [destroy] and [update] report
    that no instance was found and leave the shell as it was. *)
Theorem C8_show_scans_destroy_update_by_key
        (sh : Shell) (arg : string) (c : cls) (id : string)
        (rest : list string) :
  Shlex.split arg = inr (cls_name c :: id :: rest) ->
  printed (do_show sh arg)
  = match filter (fun o => isinstance o c && (obj_id o =? id))
                 (dict_values (objects sh)) with
    | o :: _ => [Line (obj_str o)]
    | [] => [no_instance_found]
    end
  /\ (printed (do_destroy sh arg) = [no_instance_found]
      <-> dict_get (key_of (cls_name c) id) (objects sh) = None)
  /\ (dict_get (key_of (cls_name c) id) (objects sh) = None ->
      printed (do_update sh arg) = [no_instance_found])
  /\ (dict_get (key_of (cls_name c) id) (objects sh) <> None -> rest = [] ->
      printed (do_update sh arg) = [attribute_name_missing])
  /\ (forall o,
        keys_match sh -> ids_unique sh ->
        In o (dict_values (objects sh)) -> obj_id o = id ->
        obj_class o <> c -> In c (ancestors (obj_class o)) ->
        printed (do_show sh arg) = [Line (obj_str o)]
        /\ printed (do_destroy sh arg) = [no_instance_found]
        /\ after (do_destroy sh arg) = sh
        /\ printed (do_update sh arg) = [no_instance_found]
        /\ after (do_update sh arg) = sh).
Proof.
  intros Hsplit.
  assert (Hshow : printed (do_show sh arg)
                  = match filter (fun o => isinstance o c
                                           && (obj_id o =? id))
                                 (dict_values (objects sh)) with
                    | o :: _ => [Line (obj_str o)]
                    | [] => [no_instance_found]
                    end).
  { unfold do_show. rewrite Hsplit, cls_name_nonempty. cbn -[key_of].
    rewrite class_mapping_name. now destruct (filter _ _). }
  assert (Hdestroy : printed (do_destroy sh arg) = [no_instance_found]
                     <-> dict_get (key_of (cls_name c) id) (objects sh)
                         = None).
  { unfold do_destroy. rewrite Hsplit, cls_name_nonempty. cbn -[key_of].
    destruct (dict_get _ (objects sh)); cbn; split;
      congruence || discriminate. }
  assert (Hupdate : dict_get (key_of (cls_name c) id) (objects sh) = None ->
                    printed (do_update sh arg) = [no_instance_found]).
  { intros Hnone. unfold do_update.
    rewrite Hsplit, cls_name_nonempty. cbn -[key_of]. now rewrite Hnone. }
  assert (Hupdate' : dict_get (key_of (cls_name c) id) (objects sh) <> None ->
                     rest = [] ->
                     printed (do_update sh arg) = [attribute_name_missing]).
  { intros Hsome ->. unfold do_update.
    rewrite Hsplit, cls_name_nonempty. cbn -[key_of].
    destruct (dict_get _ (objects sh)); [reflexivity|congruence]. }
  refine (conj Hshow (conj Hdestroy (conj Hupdate (conj Hupdate' _)))).
  intros o Hkeys Huniq Hin Hid Hclass Hanc.
  assert (Hinst : isinstance o c = true).
  { unfold isinstance. apply orb_true_iff. right.
    apply existsb_exists. exists c. split; [exact Hanc|].
    apply cls_eqb_refl. }
  assert (Hnone : dict_get (key_of (cls_name c) id) (objects sh) = None).
  { destruct (dict_get _ (objects sh)) as [o'|] eqn:E; [|reflexivity].
    apply dict_get_In in E. pose proof (Hkeys _ _ E) as Hk.
    apply key_of_inj in Hk as [Hc Hi].
    assert (o' = o).
    { apply Huniq; [now apply In_dict_values in E|exact Hin|congruence]. }
    subst o'. congruence. }
  split; [|split; [|split; [|split]]].
  - rewrite Hshow. subst id.
    destruct (show_scan_unique sh c o Huniq Hin Hinst) as [l ->].
    reflexivity.
  - now apply Hdestroy.
  - unfold do_destroy. rewrite Hsplit, cls_name_nonempty. cbn -[key_of].
    now rewrite Hnone.
  - now apply Hupdate.
  - unfold do_update. rewrite Hsplit, cls_name_nonempty. cbn -[key_of].
    now rewrite Hnone.
Qed.

(** From [a || (b || ...) = false], every test is false: rewrite the
    goal with each of them. *)
Ltac all_false H :=
  repeat (let E := fresh "E" in
          apply orb_false_iff in H; destruct H as [E H]; rewrite ?E).

(** [default] on a line whose command word is none of its five. *)
Lemma default_unknown (sh : Shell) (line : string) :
  (forall v, dotted_command line = Some v ->
             existsb (String.eqb v) dotted_verbs = false) ->
  default sh line = say sh (unknown_syntax line).
Proof.
  unfold dotted_command, default. intros H.
  destruct (Nat.eqb (length (split_on "." line)) 1); [reflexivity|].
  specialize (H _ eq_refl). cbn in H.
  all_false H. reflexivity.
Qed.

(** A word that names no command reaches [default]. *)
Lemma onecmd_falls_back (sh : Shell) (line l c : string) (arg : option string) :
  parseline line = (Some c, arg, l) ->
  l <> "" ->
  has_command c = false ->
  onecmd sh line
  = default (with_lastcmd (if l =? "EOF" then "" else l) sh) l.
Proof.
  intros Hparse Hl Hc. unfold onecmd. rewrite Hparse.
  destruct l as [|a l]; [congruence|].
  destruct (c =? "") eqn:E0; [reflexivity|].
  cbn in Hc. all_false Hc. reflexivity.
Qed.

(** A line whose command word, as [parseline] gives it, names no command
    and whose dotted command word, if it has one, is none of the five of
    [default]: the shell prints the unknown-syntax message for the stripped
    line and goes on, the mapping, the file and the number of saves being
    as before. *)
Lemma unknown_syntax_parsed (sh : Shell) (line l : string)
      (cmd arg : option string) :
  parseline line = (cmd, arg, l) ->
  l <> "" ->
  (forall c, cmd = Some c -> has_command c = false) ->
  (forall v, dotted_command l = Some v ->
             existsb (String.eqb v) dotted_verbs = false) ->
  let r := onecmd sh line in
  printed r = [unknown_syntax l]
  /\ ctl r = Continue
  /\ objects (after r) = objects sh
  /\ file (after r) = file sh
  /\ saves (after r) = saves sh
  /\ forall input,
       cmdloop sh (line :: input)
       = let r' := cmdloop (after r) input in
         mkOutcome (after r') (unknown_syntax l :: printed r') (ctl r').
Proof.
  intros Hparse Hl Hcmd Hverb r.
  assert (Hr : exists sh', r = say sh' (unknown_syntax l)
                           /\ objects sh' = objects sh
                           /\ file sh' = file sh /\ saves sh' = saves sh).
  { unfold r. destruct cmd as [c|].
    - rewrite (onecmd_falls_back sh line l c arg Hparse Hl (Hcmd c eq_refl)).
      rewrite default_unknown by exact Hverb. eexists. now split.
    - unfold onecmd. rewrite Hparse. destruct l as [|a l]; [congruence|].
      rewrite default_unknown by exact Hverb. eexists. now split. }
  destruct Hr as (sh' & Hr & Ho & Hf & Hs).
  assert (Hctl : ctl (onecmd sh line) = Continue) by (fold r; now rewrite Hr).
  repeat split; try (rewrite Hr; assumption || reflexivity).
  intros input. rewrite (cmdloop_continue sh line input Hctl).
  fold r. now rewrite Hr.
Qed.

(** What [parseline] makes of a line that is not blank and does not begin
    with a question mark: no command word when the stripped line begins
    with an exclamation mark, and otherwise its leading run of letters,
    digits and underscores. *)
Lemma parseline_plain_start (line : string) (x : ascii) (rest : string) :
  strip_ws line = String x rest ->
  Ascii.eqb x "?" = false ->
  let l := String x rest in
  parseline line
  = if Ascii.eqb x "!" then (None, None, l)
    else (Some (fst (span identchars l)),
          Some (strip_ws (snd (span identchars l))), l).
Proof.
  intros Hstrip Hq l. unfold parseline. rewrite Hstrip, Hq. fold l.
  destruct (Ascii.eqb x "!"); [reflexivity|].
  now destruct (span identchars l).
Qed.

(** C7 (as the code has it): take a line that is not blank and whose
    stripped form [l] does not begin with a question mark (which the
    command loop reads as [help]); let its leading word, the run of
    letters, digits and underscores at the start of [l], be none of the
    nine command verbs; and let [l] either hold no dot or have, after its
    first dot and up to the next dot or opening parenthesis, a word other
    than [all], [count], [show], [destroy] and [update].  Then the shell
    prints the unknown-syntax message for [l]; the loop continues with the
    next line, and the mapping, the saved file and the number of saves are
    as before.  [Foo.bar()] is such a line. *)
Theorem C7_unknown_syntax (sh : Shell) (line : string) :
  let l := strip_ws line in
  l <> "" ->
  (forall rest, l <> String "?" rest) ->
  has_command (fst (span identchars l)) = false ->
  (forall v, dotted_command l = Some v ->
             existsb (String.eqb v) dotted_verbs = false) ->
  let r := onecmd sh line in
  printed r = [unknown_syntax l]
  /\ ctl r = Continue
  /\ objects (after r) = objects sh
  /\ file (after r) = file sh
  /\ saves (after r) = saves sh
  /\ forall input,
       cmdloop sh (line :: input)
       = let r' := cmdloop (after r) input in
         mkOutcome (after r') (unknown_syntax l :: printed r') (ctl r').
Proof.
  intros l Hl Hq Hcmd Hverb.
  destruct l as [|x rest] eqn:El; [congruence|].
  assert (Hx : Ascii.eqb x "?" = false).
  { destruct (Ascii.eqb_spec x "?") as [->|]; [|reflexivity].
    now elim (Hq rest). }
  pose proof (parseline_plain_start line x rest El Hx) as Hparse.
  cbv zeta in Hparse.
  destruct (Ascii.eqb x "!").
  - apply (unknown_syntax_parsed sh line (String x rest) None None Hparse);
      [discriminate|discriminate|exact Hverb].
  - apply (unknown_syntax_parsed sh line (String x rest) _ _ Hparse);
      [discriminate| |exact Hverb].
    intros c [= <-]. exact Hcmd.
Qed.

(** The argument string of [update] in dotted notation, piece by piece:
    the text is cut at every comma, and only the first three pieces are
    used. *)
Lemma update_rewrite_pieces (class_arg p0 p1 p2 : string)
      (more : list string) :
  Forall (fun p => mem "," p = false) (p0 :: p1 :: p2 :: more) ->
  update_rewrite class_arg (join "," (p0 :: p1 :: p2 :: more))
  = Some (class_arg ++ " " ++ strip dquote (strip squote p0)
            ++ " " ++ strip dquote (strip squote (strip " " p1))
            ++ " " ++ strip ")" (strip " " p2)).
Proof.
  intros Hall. unfold update_rewrite.
  rewrite PyStrFacts.split_on_join by (discriminate || exact Hall).
  cbn [hd nth_error].
  inversion Hall as [|? ? _ Hall1]; subst.
  inversion Hall1 as [|? ? Hp1 _]; subst.
  now rewrite (PyStrFacts.strip_absent "," p1 Hp1).
Qed.

(** The handlers see their argument through the tokenizer only. *)
Lemma do_show_tokens (sh : Shell) (a b : string) :
  Shlex.split a = Shlex.split b -> do_show sh a = do_show sh b.
Proof. unfold do_show. now intros ->. Qed.

Lemma do_update_tokens (sh : Shell) (a b : string) :
  Shlex.split a = Shlex.split b -> do_update sh a = do_update sh b.
Proof. unfold do_update. now intros ->. Qed.

(** Where the dotted notation does agree with the verb-first form: for a
    class name and an identifier that are plain words,
    [<class>.show("<id>")] is handled as [show <class> <id>]. *)
Lemma dotted_show_plain (sh : Shell) (class_arg id : string) :
  plain_word class_arg = true -> plain_word id = true ->
  default sh (class_arg ++ ".show(" ++ quoted id ++ ")")
  = do_show sh (class_arg ++ " " ++ id).
Proof.
  intros Hclass Hid. unfold default.
  change (class_arg ++ ".show(" ++ quoted id ++ ")")
    with (class_arg ++ String "." ("show" ++ String "(" (quoted id ++ ")"))).
  assert (Hmem : forall c, plain c = false -> Ascii.eqb dquote c = false ->
                           mem c (quoted id) = false).
  { intros c Hc Hq. rewrite PyStrFacts.mem_quoted by exact Hq.
    now apply PyStrFacts.plain_word_mem. }
  rewrite PyStrFacts.split_on_first
    by now apply PyStrFacts.plain_word_mem.
  rewrite (PyStrFacts.split_on_absent "." _)
    by (cbn [append mem Ascii.eqb Bool.eqb orb];
        rewrite PyStrFacts.mem_app, Hmem; reflexivity).
  cbn [length Nat.eqb hd nth].
  rewrite PyStrFacts.split_on_first by reflexivity.
  rewrite (PyStrFacts.split_on_absent "(" _)
    by (rewrite PyStrFacts.mem_app, Hmem; reflexivity).
  cbn [hd String.eqb Ascii.eqb Bool.eqb nth_error].
  rewrite PyStrFacts.split_on_first by (apply Hmem; reflexivity).
  cbn [hd].
  rewrite PyStrFacts.strip_other_quoted by reflexivity.
  rewrite PyStrFacts.strip_quoted
    by (now apply PyStrFacts.plain_word_mem).
  reflexivity.
Qed.

(** Likewise [<class>.update("<id>", "<attr>", "<val>")] is handled as
    [update <class> <id> <attr> <val>] when the class name, the
    identifier, the attribute name and the value are plain words. *)
Lemma dotted_update_plain (sh : Shell) (class_arg id attr val : string) :
  plain_word class_arg = true -> plain_word id = true ->
  plain_word attr = true -> plain_word val = true ->
  default sh (class_arg ++ ".update(" ++ quoted id ++ ", " ++ quoted attr
                        ++ ", " ++ quoted val ++ ")")
  = do_update sh (class_arg ++ " " ++ id ++ " " ++ attr ++ " " ++ val).
Proof.
  intros Hclass Hid Hattr Hval.
  assert (Hmem : forall w c, plain_word w = true -> plain c = false ->
                             Ascii.eqb dquote c = false ->
                             mem c (quoted w) = false).
  { intros w c Hw Hc Hq. rewrite PyStrFacts.mem_quoted by exact Hq.
    now apply PyStrFacts.plain_word_mem. }
  pose (p0 := quoted id).
  pose (p1 := " " ++ quoted attr).
  pose (p2 := " " ++ quoted val ++ ")").
  assert (Hfree : forall c, plain c = false -> Ascii.eqb dquote c = false ->
                            Ascii.eqb " " c = false ->
                            Ascii.eqb ")" c = false ->
                            mem c p0 = false /\ mem c p1 = false
                            /\ mem c p2 = false).
  { intros c Hc Hq Hs Hp. unfold p0, p1, p2. cbn [append mem].
    rewrite Hs, PyStrFacts.mem_app, !Hmem by assumption.
    cbn [mem]. now rewrite Hp. }
  destruct (Hfree ","%char eq_refl eq_refl eq_refl eq_refl) as (Hc0 & Hc1 & Hc2).
  destruct (Hfree "."%char eq_refl eq_refl eq_refl eq_refl) as (Hd0 & Hd1 & Hd2).
  destruct (Hfree "("%char eq_refl eq_refl eq_refl eq_refl) as (Ho0 & Ho1 & Ho2).
  assert (Hrw : update_rewrite class_arg (join "," [p0; p1; p2])
                = Some (class_arg ++ " " ++ id ++ " " ++ attr
                                  ++ " " ++ quoted val)).
  { rewrite (update_rewrite_pieces class_arg p0 p1 p2 [])
      by (repeat constructor; assumption).
    unfold p0, p1, p2.
    rewrite (PyStrFacts.strip_other_quoted squote id) by reflexivity.
    rewrite (PyStrFacts.strip_quoted id)
      by (now apply PyStrFacts.plain_word_mem).
    assert (Hsp : forall x, strip " " (" " ++ quoted x) = quoted x).
    { intros x. unfold strip, strip_by. cbn [append lstrip_by Ascii.eqb Bool.eqb].
      change (lstrip_by (Ascii.eqb " ") (quoted x)) with (quoted x).
      apply (PyStrFacts.rstrip_keeps_last _ (String dquote x)). reflexivity. }
    rewrite Hsp.
    rewrite (PyStrFacts.strip_other_quoted squote attr) by reflexivity.
    rewrite (PyStrFacts.strip_quoted attr)
      by (now apply PyStrFacts.plain_word_mem).
    assert (Hv : strip ")" (strip " " (" " ++ quoted val ++ ")"))
                 = quoted val).
    { unfold strip at 2. unfold strip_by.
      cbn [append lstrip_by Ascii.eqb Bool.eqb].
      change (lstrip_by (Ascii.eqb " ") (quoted val ++ ")"))
        with (quoted val ++ ")").
      rewrite (PyStrFacts.rstrip_keeps_last _ (quoted val)) by reflexivity.
      unfold strip, strip_by.
      change (lstrip_by (Ascii.eqb ")") (quoted val ++ ")"))
        with (quoted val ++ ")").
      rewrite PyStrFacts.rstrip_drops_last by reflexivity.
      apply (PyStrFacts.rstrip_keeps_last _ (String dquote val)).
      reflexivity. }
    now rewrite Hv. }
  assert (Hline : class_arg ++ ".update(" ++ quoted id ++ ", "
                            ++ quoted attr ++ ", " ++ quoted val ++ ")"
                  = class_arg ++ String "."
                      ("update" ++ String "(" (join "," [p0; p1; p2])))
    by reflexivity.
  rewrite Hline. clear Hline. unfold default.
  assert (Hjoin : forall c, mem c p0 = false -> mem c p1 = false ->
                            mem c p2 = false -> Ascii.eqb "," c = false ->
                            mem c (join "," [p0; p1; p2]) = false).
  { intros c H0 H1 H2 Hc. cbn [join].
    rewrite PyStrFacts.mem_app. cbn [mem]. rewrite PyStrFacts.mem_app.
    cbn [mem]. now rewrite H0, H1, H2, Hc. }
  rewrite PyStrFacts.split_on_first
    by now apply PyStrFacts.plain_word_mem.
  rewrite (PyStrFacts.split_on_absent "." _)
    by (cbn [append mem Ascii.eqb Bool.eqb orb]; now apply Hjoin).
  cbn [length Nat.eqb hd nth].
  rewrite PyStrFacts.split_on_first by reflexivity.
  rewrite (PyStrFacts.split_on_absent "(" _) by now apply Hjoin.
  cbn [hd String.eqb Ascii.eqb Bool.eqb nth_error].
  rewrite Hrw.
  apply do_update_tokens.
  destruct (ShlexFacts.split_four_words class_arg id attr val)
    as [Hplain Hquoted]; try assumption.
  now rewrite Hplain, Hquoted.
Qed.

(** C1 (what the code does): [destroy] never consults the class
    registry.  For the unrecognized name [Foo], [show] reports that the
    class does not exist, while [destroy] on the same arguments goes
    straight to the lookup of the key and reports that no instance was
    found; no argument string at all makes [destroy] print the
    class-does-not-exist message. *)
Theorem C1_destroy_skips_class_check (sh : Shell) :
  class_mapping "Foo" = None
  /\ printed (do_show sh "Foo 123") = [class_doesnt_exist]
  /\ printed (do_destroy (with_objects [] sh) "Foo 123")
     = [no_instance_found]
  /\ forall arg, printed (do_destroy sh arg) <> [class_doesnt_exist].
Proof.
  refine (conj eq_refl (conj eq_refl (conj eq_refl _))).
  intros arg. unfold do_destroy, class_doesnt_exist.
  destruct (Shlex.split arg) as [msg|args]; simpl; [discriminate|].
  destruct (no_class_name args); simpl; [discriminate|].
  destruct (Nat.ltb (length args) 2); simpl; [discriminate|].
  destruct (dict_get _ (objects sh)); simpl; discriminate.
Qed.

End ConsoleFacts.

(** ** The handlers on attribute bags: concrete runs *)

Import Bag.

Lemma two_objects_keys_match : keys_match two_objects.
Proof.
  intros k o [H|[H|[]]]; injection H as <- <-; reflexivity.
Qed.

Lemma two_objects_ids_unique : ids_unique two_objects.
Proof.
  intros o1 o2 [<-|[<-|[]]] [<-|[<-|[]]]; cbn; intros H;
    reflexivity || discriminate H.
Qed.

Lemma dotted_form_has_paren (line : string) :
  Spec.dotted_form line -> mem "(" line = true.
Proof.
  intros (class_arg & verb & args & ->).
  rewrite PyStrFacts.mem_app. cbn.
  rewrite PyStrFacts.mem_app. cbn.
  now rewrite !orb_true_r.
Qed.

(** C2 (what the code does): [default] cuts the argument text of a dotted
    [update] at every comma and strips the id token of quotes only, where
    the wording asks for a cut at the first two commas and for stripped
    white space.  With one user in the mapping: for a quoted value that
    holds a comma the code passes on the value up to its comma, opening
    quote included, and for an id token after a space it passes on the
    space and the opening quote; the wording passes on the whole quoted
    value and the bare id.  Both lines end in an uncaught [ValueError] of
    the tokenizer with nothing changed, while [do_update] on the argument
    the wording describes, which is also what the verb-first command
    passes, sets the attribute and saves. *)
Theorem C2_update_value_with_comma :
  let sh := shell_of [("User.1", a_user "1")] in
  let text :=
    quoted "1" ++ ", " ++ quoted "name" ++ ", " ++ quoted "a,b" ++ ")" in
  let text' :=
    " " ++ quoted "1" ++ ", " ++ quoted "name" ++ ", " ++ quoted "Bob" ++ ")" in
  (update_rewrite "User" text = Some ("User 1 name " ++ String dquote "a")
   /\ Spec.update_rewrite "User" text = Some ("User 1 name " ++ quoted "a,b")
   /\ ctl (onecmd sh ("User.update(" ++ text))
      = Uncaught Shlex.no_closing_quotation
   /\ printed (onecmd sh ("User.update(" ++ text)) = []
   /\ objects (after (onecmd sh ("User.update(" ++ text))) = objects sh
   /\ objects (after (do_update sh ("User 1 name " ++ quoted "a,b")))
      = [("User.1", mkBag User "1" 0 1 [("name", "a,b")])]
   /\ objects (after (onecmd sh ("update User 1 name " ++ quoted "a,b")))
      = [("User.1", mkBag User "1" 0 1 [("name", "a,b")])])
  /\ (update_rewrite "User" text'
      = Some ("User  " ++ String dquote "1 name " ++ quoted "Bob")
      /\ Spec.update_rewrite "User" text'
         = Some ("User 1 name " ++ quoted "Bob")
      /\ ctl (onecmd sh ("User.update(" ++ text'))
         = Uncaught Shlex.no_closing_quotation
      /\ objects (after (onecmd sh ("User.update(" ++ text'))) = objects sh
      /\ objects (after (do_update sh ("User 1 name " ++ quoted "Bob")))
         = [("User.1", mkBag User "1" 0 1 [("name", "Bob")])]).
Proof.
  cbv zeta. repeat split.
Qed.

Lemma C3_error_order_witness :
  Shlex.split "User 1 name" = inr ["User"; "1"; "name"]
  /\ printed (do_update two_objects "User 1 name") = [value_missing]
  /\ printed (do_update two_objects "User 7 name") = [no_instance_found]
  /\ printed (do_show two_objects "User") = [instance_id_missing].
Proof.
  split; [reflexivity|]. split; [|split].
  - apply (C3_error_order two_objects "User 1 name" ["User"; "1"; "name"]
             eq_refl); [reflexivity|reflexivity|].
    vm_compute. discriminate.
  - apply (C3_error_order two_objects "User 7 name" ["User"; "7"; "name"]
             eq_refl); [reflexivity|cbn; lia|reflexivity].
  - apply (C3_error_order two_objects "User" ["User"] eq_refl);
      [reflexivity|cbn; lia].
Defined.

Lemma C4_all_filters_by_name_witness :
  Shlex.split "User" = inr ["User"]
  /\ printed (do_all two_objects "User")
     = [ListLine [obj_str (a_user "1")]]
  /\ (printed (do_all two_objects "Place") = [class_doesnt_exist]).
Proof.
  split; [reflexivity|]. split.
  - apply (C4_all_filters_by_name two_objects "User" ["User"]
             eq_refl eq_refl).
    vm_compute. discriminate.
  - apply (C4_all_filters_by_name two_objects "Place" ["Place"]
             eq_refl eq_refl).
    reflexivity.
Defined.

Lemma C6_count_is_polymorphic_witness :
  Shlex.split "BaseModel" = inr ["BaseModel"]
  /\ printed (do_count two_objects "BaseModel") = [IntLine 2]
  /\ printed (do_count two_objects "Foo") = [class_doesnt_exist].
Proof.
  split; [reflexivity|]. split.
  - destruct (C6_count_is_polymorphic two_objects "BaseModel" ["BaseModel"]
                eq_refl) as (_ & _ & H).
    destruct (H eq_refl BaseModel eq_refl) as [H1 _]. exact H1.
  - apply (C6_count_is_polymorphic two_objects "Foo" ["Foo"] eq_refl);
      reflexivity.
Defined.

(** C5 (what the code does): with one user in the mapping, the dotted
    line that sets the attribute [email] to an address with a dot in it
    ends in an uncaught [ValueError] of the tokenizer (the line was cut at
    every dot, so the value lost its closing quote), with nothing printed
    and nothing changed, while the verb-first command with the same three
    arguments sets the attribute and saves. *)
Theorem C5_dotted_update_diverges :
  let sh := shell_of [("User.1", a_user "1")] in
  let dotted :=
    "User.update(" ++ quoted "1" ++ ", " ++ quoted "email" ++ ", "
                   ++ quoted "a@b.com" ++ ")" in
  let r := onecmd sh dotted in
  let r' := onecmd sh "update User 1 email a@b.com" in
  (ctl r = Uncaught Shlex.no_closing_quotation
   /\ printed r = []
   /\ objects (after r) = objects sh
   /\ saves (after r) = 0)
  /\ (ctl r' = Continue
      /\ printed r' = []
      /\ objects (after r')
         = [("User.1", mkBag User "1" 0 1 [("email", "a@b.com")])]
      /\ saves (after r') = 1).
Proof.
  cbv zeta. repeat split.
Qed.

(** C7, against the wording: [User.all] has no parentheses and starts
    with no command verb, yet it is run as [all User]; and the line made of
    a single quote, [.show] and an opening parenthesis, which is of neither
    form, leaves the loop with an uncaught [ValueError]. *)
Lemma C7_counterexample :
  let sh := shell_of [] in
  let crashing := String squote ".show(" in
  (Spec.verb_first "User.all" = false
   /\ ~ Spec.dotted_form "User.all"
   /\ printed (onecmd sh "User.all") = [class_doesnt_exist]
   /\ printed (onecmd sh "User.all") <> [unknown_syntax "User.all"])
  /\ (Spec.verb_first crashing = false
      /\ ~ Spec.dotted_form crashing
      /\ ctl (onecmd sh crashing) = Uncaught Shlex.no_closing_quotation
      /\ printed (onecmd sh crashing) = []).
Proof.
  cbv zeta. split; (split; [reflexivity|split; [|split]]).
  - intros H. apply dotted_form_has_paren in H. discriminate H.
  - reflexivity.
  - vm_compute. discriminate.
  - intros (class_arg & verb & args & H).
    assert (E : mem ")" (String squote ".show(") = true).
    { rewrite H. rewrite !PyStrFacts.mem_app. cbn.
      now rewrite !orb_true_r. }
    discriminate E.
  - reflexivity.
  - reflexivity.
Qed.

Lemma C7_unknown_syntax_witness :
  strip_ws "Foo.bar()" = "Foo.bar()"
  /\ has_command (fst (span identchars "Foo.bar()")) = false
  /\ dotted_command "Foo.bar()" = Some "bar"
  /\ printed (onecmd two_objects "Foo.bar()") = [unknown_syntax "Foo.bar()"]
  /\ ctl (onecmd two_objects "Foo.bar()") = Continue.
Proof.
  split; [reflexivity|]. split; [reflexivity|]. split; [reflexivity|].
  destruct (C7_unknown_syntax two_objects "Foo.bar()")
    as (Hprinted & Hctl & _).
  - discriminate.
  - discriminate.
  - reflexivity.
  - intros v [= <-]. reflexivity.
  - split; [exact Hprinted|exact Hctl].
Defined.

Lemma C8_show_scans_destroy_update_by_key_witness :
  Shlex.split "BaseModel 1" = inr ["BaseModel"; "1"]
  /\ printed (do_show two_objects "BaseModel 1")
     = [Line (obj_str (a_user "1"))]
  /\ printed (do_destroy two_objects "BaseModel 1") = [no_instance_found]
  /\ printed (do_update two_objects "BaseModel 1") = [no_instance_found].
Proof.
  split; [reflexivity|].
  destruct (C8_show_scans_destroy_update_by_key two_objects "BaseModel 1"
              BaseModel "1" [] eq_refl) as (_ & _ & _ & _ & H).
  destruct (H (a_user "1") two_objects_keys_match two_objects_ids_unique)
    as (Hshow & Hdestroy & _ & Hupdate & _).
  - cbn. now left.
  - reflexivity.
  - discriminate.
  - cbn. now left.
  - split; [exact Hshow|split; [exact Hdestroy|exact Hupdate]].
Defined.

Lemma C9_errors_leave_state_witness :
  Shlex.split "User 9" = inr ["User"; "9"]
  /\ after (do_destroy two_objects "User 9") = two_objects
  /\ after (do_update two_objects "User 9") = two_objects
  /\ printed (do_destroy two_objects "User 1") = [].
Proof.
  split; [reflexivity|].
  destruct (C9_errors_leave_state two_objects "User 9" ["User"; "9"] eq_refl)
    as (Hdestroy & Hupdate & _).
  destruct (C9_errors_leave_state two_objects "User 1" ["User"; "1"] eq_refl)
    as (_ & _ & Hdone).
  split; [|split].
  - apply Hdestroy. right. right. reflexivity.
  - apply Hupdate. right. right. left. reflexivity.
  - apply Hdone; [reflexivity|cbn; lia|]. vm_compute. discriminate.
Defined.

(** * Further properties of the console *)

(** ** The dictionary operations *)

Section DictFacts.

Context {M : Models}.

Lemma dict_get_None (key : string) (d : objdict) :
  dict_get key d = None <-> ~ In key (map fst d).
Proof.
  induction d as [|[k o] d IH]; simpl; [tauto|].
  destruct (String.eqb_spec k key) as [->|Hne].
  - split; [discriminate|]. intros H. elim H. now left.
  - rewrite IH. tauto.
Qed.

Lemma dict_get_set_same (key : string) (o : obj) (d : objdict) :
  dict_get key (dict_set key o d) = Some o.
Proof.
  induction d as [|[k o'] d IH]; simpl.
  - now rewrite String.eqb_refl.
  - destruct (String.eqb_spec k key) as [->|Hne]; simpl.
    + now rewrite String.eqb_refl.
    + apply String.eqb_neq in Hne. now rewrite Hne.
Qed.

Lemma dict_get_set_other (key k : string) (o : obj) (d : objdict) :
  k <> key -> dict_get k (dict_set key o d) = dict_get k d.
Proof.
  intros Hk. induction d as [|[k' o'] d IH]; simpl.
  - apply not_eq_sym, String.eqb_neq in Hk. now rewrite Hk.
  - destruct (String.eqb_spec k' key) as [->|Hne]; simpl.
    + apply not_eq_sym, String.eqb_neq in Hk. now rewrite Hk.
    + now rewrite IH.
Qed.

(** An assignment to a key that is there keeps the keys and their order;
    to a new key it adds the key at the end. *)
Lemma dict_set_keys (key : string) (o : obj) (d : objdict) :
  map fst (dict_set key o d)
  = if existsb (String.eqb key) (map fst d) then map fst d
    else (map fst d ++ [key])%list.
Proof.
  induction d as [|[k o'] d IH]; simpl; [reflexivity|].
  rewrite (String.eqb_sym key k).
  destruct (String.eqb_spec k key) as [->|Hne]; simpl; [reflexivity|].
  rewrite IH. now destruct (existsb _ _).
Qed.

Lemma existsb_eqb_In (key : string) (l : list string) :
  existsb (String.eqb key) l = true <-> In key l.
Proof.
  rewrite existsb_exists. split.
  - intros (x & Hx & E). apply String.eqb_eq in E. now subst.
  - intros H. exists key. split; [exact H|apply String.eqb_refl].
Qed.

Lemma dict_set_keys_unique (key : string) (o : obj) (d : objdict) :
  NoDup (map fst d) -> NoDup (map fst (dict_set key o d)).
Proof.
  intros H. rewrite dict_set_keys.
  destruct (existsb (String.eqb key) (map fst d)) eqn:E; [exact H|].
  apply NoDup_app; [exact H|repeat constructor; intros []|].
  intros x Hx [<-|[]].
  apply existsb_eqb_In in Hx. congruence.
Qed.

Lemma dict_del_subset (key : string) (d : objdict) (e : string * obj) :
  In e (dict_del key d) -> In e d.
Proof.
  induction d as [|[k o] d IH]; simpl; [tauto|].
  destruct (k =? key); simpl; [now right|].
  intros [H|H]; [now left|right; now apply IH].
Qed.

Lemma dict_del_keys_subset (key k : string) (d : objdict) :
  In k (map fst (dict_del key d)) -> In k (map fst d).
Proof.
  intros H. apply in_map_iff in H as (e & <- & He).
  apply in_map. now apply (dict_del_subset key).
Qed.

Lemma dict_del_keys_unique (key : string) (d : objdict) :
  NoDup (map fst d) -> NoDup (map fst (dict_del key d)).
Proof.
  induction d as [|[k o] d IH]; simpl; intros H; [constructor|].
  inversion H as [|? ? Hk Hd]; subst.
  destruct (k =? key); simpl; [exact Hd|].
  constructor; [|now apply IH].
  intros Hin. apply Hk. now apply (dict_del_keys_subset key).
Qed.

(** With unique keys, a deleted key is gone. *)
Lemma dict_del_gone (key : string) (d : objdict) :
  NoDup (map fst d) -> ~ In key (map fst (dict_del key d)).
Proof.
  induction d as [|[k o] d IH]; simpl; intros H; [tauto|].
  inversion H as [|? ? Hk Hd]; subst.
  destruct (String.eqb_spec k key) as [->|Hne]; simpl; [exact Hk|].
  intros [E|Hin]; [congruence|]. now apply IH.
Qed.

Lemma dict_get_del_other (key k : string) (d : objdict) :
  k <> key -> dict_get k (dict_del key d) = dict_get k d.
Proof.
  intros Hk. induction d as [|[k' o'] d IH]; simpl; [reflexivity|].
  destruct (String.eqb_spec k' key) as [->|Hne]; simpl.
  - apply not_eq_sym, String.eqb_neq in Hk. now rewrite Hk.
  - now rewrite IH.
Qed.

Lemma dict_del_length (key : string) (d : objdict) (o : obj) :
  dict_get key d = Some o -> length d = S (length (dict_del key d)).
Proof.
  induction d as [|[k o'] d IH]; simpl; [discriminate|].
  destruct (k =? key); simpl; [reflexivity|].
  intros H. now rewrite (IH H).
Qed.

Lemma dict_set_values (key : string) (o x : obj) (d : objdict) :
  In x (dict_values (dict_set key o d)) -> x = o \/ In x (dict_values d).
Proof.
  unfold dict_values.
  induction d as [|[k o'] d IH]; simpl.
  - intros [<-|[]]. now left.
  - destruct (k =? key); simpl.
    + intros [<-|H]; [now left|right; now right].
    + intros [<-|H]; [right; now left|].
      destruct (IH H) as [->|H']; [now left|right; now right].
Qed.

Lemma dict_set_holds (key : string) (o : obj) (d : objdict) :
  In o (dict_values (dict_set key o d)).
Proof.
  apply (In_dict_values key). apply dict_get_In, dict_get_set_same.
Qed.

End DictFacts.

(** ** What each handler can do *)

Section EffectFacts.

Context {M : Models}.

Lemma push_error (token msg : string) (r : string + list string) :
  Shlex.push token r = inl msg -> r = inl msg.
Proof. destruct r; simpl; congruence. Qed.

(** The tokenizer raises with one of its two messages only. *)
Lemma run_errors (input : string) :
  forall state quoted token msg,
    Shlex.run state quoted token input = inl msg ->
    In msg [Shlex.no_closing_quotation; Shlex.no_escaped_character].
Proof.
  induction input as [|c rest IH]; intros state quoted token msg.
  - destruct state; simpl; intros [= <-]; auto.
  - destruct state as [| |q|[|q]]; cbn [Shlex.run];
      repeat match goal with
             | |- context [if ?b then _ else _] => destruct b
             end;
      intros H; try apply push_error in H; eauto.
Qed.

Lemma split_errors (arg msg : string) :
  Shlex.split arg = inl msg ->
  In msg [Shlex.no_closing_quotation; Shlex.no_escaped_character].
Proof. apply run_errors. Qed.

(** A handler that only reads: it crashes in the tokenizer or leaves the
    shell as it was. *)
Ltac reads :=
  repeat match goal with
         | |- effect _ (if ?b then _ else _) => destruct b
         | |- effect _ (match ?x with _ => _ end) => destruct x eqn:?
         | |- effect _ _ => now apply Unchanged
         end.

Lemma crash_effect (sh : Shell) (arg msg : string) :
  Shlex.split arg = inl msg -> effect sh (value_error sh msg).
Proof.
  intros H. apply (Crashed sh _ msg); [now apply split_errors in H|].
  reflexivity.
Qed.

Lemma do_show_effect (sh : Shell) (arg : string) : effect sh (do_show sh arg).
Proof.
  unfold do_show.
  destruct (Shlex.split arg) as [msg|args] eqn:E;
    [now apply (crash_effect sh arg)|]. reads.
Qed.

Lemma do_all_effect (sh : Shell) (arg : string) : effect sh (do_all sh arg).
Proof.
  unfold do_all.
  destruct (Shlex.split arg) as [msg|args] eqn:E;
    [now apply (crash_effect sh arg)|]. reads.
Qed.

Lemma do_count_effect (sh : Shell) (arg : string) :
  effect sh (do_count sh arg).
Proof.
  unfold do_count.
  destruct (Shlex.split arg) as [msg|args] eqn:E;
    [now apply (crash_effect sh arg)|]. reads.
Qed.

Lemma do_help_effect (sh : Shell) (arg : string) : effect sh (do_help sh arg).
Proof. unfold do_help. reads. Qed.

Lemma do_destroy_effect (sh : Shell) (arg : string) :
  effect sh (do_destroy sh arg).
Proof.
  unfold do_destroy.
  destruct (Shlex.split arg) as [msg|args] eqn:E;
    [now apply (crash_effect sh arg)|].
  destruct (no_class_name args); [now apply Unchanged|].
  destruct (Nat.ltb (length args) 2); [now apply Unchanged|].
  destruct (dict_get _ (objects sh)); [|now apply Unchanged].
  apply Saved; try reflexivity. left. eexists. reflexivity.
Qed.

Lemma do_update_effect (sh : Shell) (arg : string) :
  effect sh (do_update sh arg).
Proof.
  unfold do_update.
  destruct (Shlex.split arg) as [msg|args] eqn:E;
    [now apply (crash_effect sh arg)|].
  destruct (no_class_name args); [now apply Unchanged|].
  destruct (Nat.ltb (length args) 2); [now apply Unchanged|].
  destruct (dict_get _ (objects sh)); [|now apply Unchanged].
  destruct (Nat.ltb (length args) 3); [now apply Unchanged|].
  destruct (Nat.ltb (length args) 4); [now apply Unchanged|].
  destruct (setattr _ _ _) as [e|o1]; [now apply Unchanged|].
  destruct (touch o1) as [e|o2].
  - apply (Unsaved sh _ e); try reflexivity.
    right. do 2 eexists. reflexivity.
  - apply Saved; try reflexivity. right. do 2 eexists. reflexivity.
Qed.

(** [create] also draws an identifier; apart from the counter of draws it
    does what the other handlers do. *)
Lemma do_create_effect (sh : Shell) (arg : string) :
  effect sh (do_create sh arg).
Proof.
  unfold do_create.
  destruct (Shlex.split arg) as [msg|args] eqn:E;
    [now apply (crash_effect sh arg)|].
  destruct (no_class_name args); [now apply Unchanged|].
  destruct (class_mapping _) as [c|]; [|now apply Unchanged].
  destruct (touch _) as [e|o].
  - apply (Unsaved sh _ e); try reflexivity.
    right. do 2 eexists. reflexivity.
  - apply Saved; try reflexivity. right. do 2 eexists. reflexivity.
Qed.

Lemma default_effect (sh : Shell) (line : string) :
  effect sh (default sh line).
Proof.
  unfold default.
  repeat match goal with
         | |- effect _ (if ?b then _ else _) => destruct b
         | |- effect _ (match ?x with _ => _ end) => destruct x
         | |- effect _ (say _ _) => now apply Unchanged
         end;
    auto using do_all_effect, do_count_effect, do_show_effect,
      do_destroy_effect, do_update_effect.
Qed.

End EffectFacts.

(** ** What one input line can do *)

Section LineFacts.

Context {M : Models}.

Lemma with_lastcmd_same (sh : Shell) : with_lastcmd (lastcmd sh) sh = sh.
Proof. now destruct sh. Qed.

(** [parseline] gives a command word and its argument together. *)
Lemma parseline_arg (line l c : string) (arg : option string) :
  parseline line = (Some c, arg, l) -> exists a, arg = Some a.
Proof.
  unfold parseline. destruct (strip_ws line) as [|x rest]; [discriminate|].
  destruct (Ascii.eqb x "!"); [discriminate|].
  destruct (span identchars _) as [cmd a]. intros [= _ <- _]. eauto.
Qed.

(** One line either stops the loop, by [quit] with a blank argument or by
    [EOF], or it has one of the four effects of a handler, on the shell
    with [lastcmd] set. *)
Lemma onecmd_cases (sh : Shell) (line : string) :
  exists last,
    let sh0 := with_lastcmd last sh in
    effect sh0 (onecmd sh line)
    \/ (exists a l, parseline line = (Some "quit", Some a, l)
                    /\ strip_ws a = ""
                    /\ onecmd sh line = mkOutcome sh0 [] Stop)
    \/ (exists a l, parseline line = (Some "EOF", Some a, l)
                    /\ onecmd sh line = mkOutcome sh0 [Line ""] Stop).
Proof.
  unfold onecmd.
  destruct (parseline line) as [[cmd arg] l] eqn:E.
  destruct l as [|x l].
  { exists (lastcmd sh). cbv zeta. rewrite with_lastcmd_same.
    left. destruct cmd; now apply Unchanged. }
  destruct cmd as [c|].
  2:{ exists (lastcmd sh). cbv zeta. rewrite with_lastcmd_same.
      left. apply default_effect. }
  destruct (parseline_arg _ _ _ _ E) as [a ->].
  exists (if String x l =? "EOF" then "" else String x l). cbv zeta.
  set (sh0 := with_lastcmd _ sh).
  destruct (c =? "") eqn:E0; [left; apply default_effect|].
  destruct (String.eqb_spec c "quit") as [->|_].
  { unfold do_quit. destruct (String.eqb_spec (strip_ws a) "") as [Ha|_].
    - right. left. now exists a, (String x l).
    - left. now apply Unchanged. }
  destruct (String.eqb_spec c "EOF") as [->|_].
  { right. right. now exists a, (String x l). }
  left.
  repeat match goal with
         | |- effect _ (if ?b then _ else _) => destruct b
         end;
    auto using do_all_effect, do_count_effect, do_show_effect,
      do_destroy_effect, do_update_effect, do_create_effect,
      do_help_effect, default_effect.
Qed.

Lemma effect_not_stop (sh : Shell) (r : Outcome) :
  effect sh r -> ctl r <> Stop.
Proof.
  intros [msg _ ->| _ H|H _ _ _ _|e H _ _ _ _ _]; simpl; congruence.
Qed.

End LineFacts.

(** ** The dispatcher as a whole *)

Section DispatchFacts.

Context {M : Models}.

Lemma parseline_nonempty (line l c : string) (arg : option string) :
  parseline line = (Some c, arg, l) -> l <> "".
Proof.
  unfold parseline. destruct (strip_ws line) as [|x rest]; [discriminate|].
  destruct (Ascii.eqb x "!"); [discriminate|].
  destruct (span identchars _) as [cmd a].
  destruct (Ascii.eqb x "?"); intros [= _ _ <-]; discriminate.
Qed.

Lemma one_change_keys_unique (d d' : objdict) :
  one_change d d' -> NoDup (map fst d) -> NoDup (map fst d').
Proof.
  intros [[k ->]|(k & o & ->)] H.
  - now apply dict_del_keys_unique.
  - now apply dict_set_keys_unique.
Qed.

Lemma effect_keys_unique (sh : Shell) (r : Outcome) :
  effect sh r -> keys_unique sh -> keys_unique (after r).
Proof.
  unfold keys_unique.
  intros [msg _ ->|E _|_ Hc _ _ _|e _ _ Hc _ _ _] H; simpl;
    try (now apply (one_change_keys_unique _ _ Hc)); congruence.
Qed.

Lemma onecmd_keys_unique (sh : Shell) (line : string) :
  keys_unique sh -> keys_unique (after (onecmd sh line)).
Proof.
  intros H. destruct (onecmd_cases sh line) as (last & Hcases).
  cbv zeta in Hcases.
  destruct Hcases as [He|[(a & l & _ & _ & ->)|(a & l & _ & ->)]];
    [|exact H|exact H].
  apply (effect_keys_unique _ _ He). exact H.
Qed.

Lemma effect_uncaught (sh : Shell) (r : Outcome) (msg : string) :
  effect sh r -> ctl r = Uncaught msg ->
  In msg [Shlex.no_closing_quotation; Shlex.no_escaped_character]
  /\ r = mkOutcome sh [] (Uncaught msg).
Proof.
  intros [m Hm E|_ H|H _ _ _ _|e H _ _ _ _ _] Hctl; try congruence.
  rewrite E in Hctl |- *. simpl in Hctl. injection Hctl as <-. now split.
Qed.

Lemma onecmd_uncaught (sh : Shell) (line msg : string) :
  ctl (onecmd sh line) = Uncaught msg ->
  In msg [Shlex.no_closing_quotation; Shlex.no_escaped_character]
  /\ exists last,
       onecmd sh line = mkOutcome (with_lastcmd last sh) [] (Uncaught msg).
Proof.
  intros Hctl. destruct (onecmd_cases sh line) as (last & Hcases).
  cbv zeta in Hcases.
  destruct Hcases as [He|[(a & l & _ & _ & E)|(a & l & _ & E)]];
    [|rewrite E in Hctl; discriminate Hctl
     |rewrite E in Hctl; discriminate Hctl].
  destruct (effect_uncaught _ _ _ He Hctl) as [Hm E]. eauto.
Qed.

(** X1: the handlers [show], [all], [count], [help], [quit] and [EOF] only
    read: whatever their argument, and also when the tokenizer raises,
    they leave the mapping, the saved file, the number of saves and the
    rest of the shell as they found them. *)
Theorem X1_readers_leave_shell (sh : Shell) (arg : string) :
  after (do_show sh arg) = sh
  /\ after (do_all sh arg) = sh
  /\ after (do_count sh arg) = sh
  /\ after (do_help sh arg) = sh
  /\ after (do_quit sh arg) = sh
  /\ after (do_EOF sh arg) = sh.
Proof.
  unfold do_show, do_all, do_count, do_help, do_quit, do_EOF.
  repeat split;
    repeat match goal with
           | |- after (if ?b then _ else _) = _ => destruct b
           | |- after (match ?x with _ => _ end) = _ => destruct x
           end; reflexivity.
Qed.

(** X2: the loop is stopped by [quit] with a blank argument and by [EOF],
    and by nothing else.  A line that stops the loop has [quit] or [EOF]
    as its command word, prints nothing ([quit]) or one empty line
    ([EOF]), and leaves the mapping, the file and the number of saves
    alone; and [quit] followed by blanks only does stop. *)
Theorem X2_only_quit_and_EOF_stop (sh : Shell) (line : string) :
  (ctl (onecmd sh line) = Stop ->
     objects (after (onecmd sh line)) = objects sh
     /\ file (after (onecmd sh line)) = file sh
     /\ saves (after (onecmd sh line)) = saves sh
     /\ ((exists a l, parseline line = (Some "quit", Some a, l)
                      /\ strip_ws a = ""
                      /\ printed (onecmd sh line) = [])
         \/ (exists a l, parseline line = (Some "EOF", Some a, l)
                         /\ printed (onecmd sh line) = [Line ""])))
  /\ (forall a l, parseline line = (Some "quit", Some a, l) ->
                  strip_ws a = "" -> ctl (onecmd sh line) = Stop)
  /\ (forall a l, parseline line = (Some "EOF", Some a, l) ->
                  ctl (onecmd sh line) = Stop).
Proof.
  refine (conj _ (conj _ _)).
  - intros Hstop. destruct (onecmd_cases sh line) as (last & Hcases).
    cbv zeta in Hcases.
    destruct Hcases as [He|[(a & l & Hp & Ha & E)|(a & l & Hp & E)]].
    + now apply effect_not_stop in He.
    + rewrite E. simpl. repeat split. left. now exists a, l.
    + rewrite E. simpl. repeat split. right. now exists a, l.
  - intros a l Hp Ha. pose proof (parseline_nonempty _ _ _ _ Hp) as Hl.
    unfold onecmd. rewrite Hp. destruct l as [|x l]; [congruence|].
    cbn. unfold do_quit. now rewrite Ha.
  - intros a l Hp. pose proof (parseline_nonempty _ _ _ _ Hp) as Hl.
    unfold onecmd. rewrite Hp. destruct l as [|x l]; [congruence|].
    reflexivity.
Qed.

(** X3: the only exception that leaves [onecmd] is the [ValueError] of the
    tokenizer, with one of its two messages, and it is raised before
    anything else happens: nothing is printed, and the mapping, the file
    and the number of saves are as before. *)
Theorem X3_uncaught_is_tokenizer_error (sh : Shell) (line msg : string) :
  ctl (onecmd sh line) = Uncaught msg ->
  In msg [Shlex.no_closing_quotation; Shlex.no_escaped_character]
  /\ printed (onecmd sh line) = []
  /\ objects (after (onecmd sh line)) = objects sh
  /\ file (after (onecmd sh line)) = file sh
  /\ saves (after (onecmd sh line)) = saves sh.
Proof.
  intros Hctl.
  destruct (onecmd_uncaught sh line msg Hctl) as (Hm & last & E).
  rewrite E. simpl. now repeat split.
Qed.

(** X5: one input line saves at most once, and a save writes the mapping
    as it then is.  After any line, either the mapping, the file and the
    number of saves are as before; or there was exactly one save and the
    file holds the live mapping; or an exception was reported as a line of
    text and nothing was saved. *)
Theorem X5_one_line_one_save (sh : Shell) (line : string) :
  let r := onecmd sh line in
  (objects (after r) = objects sh /\ file (after r) = file sh
   /\ saves (after r) = saves sh)
  \/ (saves (after r) = S (saves sh) /\ file (after r) = objects (after r))
  \/ (exists e, printed r = [exception_line e]
                /\ file (after r) = file sh /\ saves (after r) = saves sh).
Proof.
  cbv zeta. destruct (onecmd_cases sh line) as (last & Hcases).
  cbv zeta in Hcases.
  destruct Hcases as [He|[(a & l & _ & _ & ->)|(a & l & _ & ->)]];
    [|left; now repeat split|left; now repeat split].
  destruct He as [m _ ->|E _|_ _ Hf Hs _|e _ Hp _ Hf Hs _].
  - left. now repeat split.
  - left. rewrite E. now repeat split.
  - right. left. now split.
  - right. right. exists e. now repeat split.
Qed.

(** X6: the loop ends by a stop or by the [ValueError] of the tokenizer,
    never otherwise, whatever the input; at the end of the input it
    stops.  The lines after the one that ends the loop are not run. *)
Theorem X6_loop_ends (sh : Shell) (input : list string) :
  (ctl (cmdloop sh input) = Stop
   \/ exists msg,
        ctl (cmdloop sh input) = Uncaught msg
        /\ In msg [Shlex.no_closing_quotation; Shlex.no_escaped_character])
  /\ ctl (cmdloop sh []) = Stop
  /\ (forall line rest,
        ctl (onecmd sh line) <> Continue ->
        cmdloop sh (line :: rest) = onecmd sh line).
Proof.
  refine (conj _ (conj eq_refl _)).
  - revert sh. induction input as [|line input IH]; intros sh.
    + now left.
    + simpl. destruct (ctl (onecmd sh line)) eqn:E.
      * simpl. apply IH.
      * left. exact E.
      * right. exists exception. split; [exact E|].
        now apply (onecmd_uncaught sh line).
  - intros line rest H. simpl.
    destruct (ctl (onecmd sh line)); [congruence|reflexivity|reflexivity].
Qed.

(** X7: the keys of the mapping stay unique, as the keys of a Python
    dictionary are: if no two entries share a key before the loop runs,
    none do after it, whatever the input lines. *)
Theorem X7_keys_stay_unique (sh : Shell) (input : list string) :
  keys_unique sh -> keys_unique (after (cmdloop sh input)).
Proof.
  revert sh. induction input as [|line input IH]; intros sh H.
  - now apply onecmd_keys_unique.
  - simpl. destruct (ctl (onecmd sh line));
      [|now apply onecmd_keys_unique|now apply onecmd_keys_unique].
    simpl. apply IH. now apply onecmd_keys_unique.
Qed.

End DispatchFacts.

(** ** Lines without quotes and backslashes *)

Section QuotingFacts.

Context {M : Models}.

Lemma all_chars_app (p : ascii -> bool) (a b : string) :
  all_chars p (a ++ b) = all_chars p a && all_chars p b.
Proof.
  induction a as [|x a IH]; simpl; [reflexivity|].
  now rewrite IH, andb_assoc.
Qed.

Lemma all_chars_split_on (p : ascii -> bool) (c : ascii) (s : string) :
  all_chars p s = true ->
  Forall (fun piece => all_chars p piece = true) (split_on c s).
Proof.
  induction s as [|a s IH]; simpl; intros H.
  - now repeat constructor.
  - apply andb_true_iff in H as [Ha Hs]. specialize (IH Hs).
    destruct (Ascii.eqb a c); [now constructor|].
    destruct (split_on c s) as [|piece pieces].
    + repeat constructor. simpl. now rewrite Ha.
    + inversion IH; subst. constructor; [|assumption].
      simpl. now rewrite Ha.
Qed.

Lemma all_chars_lstrip (p q : ascii -> bool) (s : string) :
  all_chars p s = true -> all_chars p (lstrip_by q s) = true.
Proof.
  induction s as [|a s IH]; simpl; [reflexivity|]. intros H.
  destruct (q a); [|exact H].
  apply andb_true_iff in H as [_ Hs]. now apply IH.
Qed.

Lemma all_chars_rstrip (p q : ascii -> bool) (s : string) :
  all_chars p s = true -> all_chars p (rstrip_by q s) = true.
Proof.
  induction s as [|a s IH]; simpl; [reflexivity|]. intros H.
  apply andb_true_iff in H as [Ha Hs]. specialize (IH Hs).
  destruct (rstrip_by q s).
  - destruct (q a); simpl; [reflexivity|now rewrite Ha].
  - simpl in *. now rewrite Ha.
Qed.

Lemma all_chars_strip_by (p q : ascii -> bool) (s : string) :
  all_chars p s = true -> all_chars p (strip_by q s) = true.
Proof.
  intros H. now apply all_chars_rstrip, all_chars_lstrip.
Qed.

Lemma all_chars_span (p q : ascii -> bool) (s : string) :
  all_chars p s = true ->
  all_chars p (fst (span q s)) = true /\ all_chars p (snd (span q s)) = true.
Proof.
  induction s as [|a s IH]; simpl; [now split|]. intros H.
  pose proof H as Has. apply andb_true_iff in H as [Ha Hs].
  destruct (q a); [|now split].
  destruct (IH Hs) as [H1 H2]. destruct (span q s); simpl in *.
  now rewrite Ha.
Qed.

Lemma all_chars_hd (p : ascii -> bool) (l : list string) :
  Forall (fun x => all_chars p x = true) l -> all_chars p (hd "" l) = true.
Proof. now intros [|x l' Hx _]. Qed.

Lemma all_chars_nth_error (p : ascii -> bool) (l : list string) (n : nat)
      (x : string) :
  Forall (fun x => all_chars p x = true) l -> nth_error l n = Some x ->
  all_chars p x = true.
Proof.
  intros H E. apply nth_error_In in E.
  now apply (proj1 (Forall_forall _ l) H).
Qed.

Lemma all_chars_nth (p : ascii -> bool) (l : list string) (n : nat) :
  Forall (fun x => all_chars p x = true) l -> all_chars p (nth n l "") = true.
Proof.
  intros H. destruct (nth_in_or_default n l "") as [Hin| ->]; [|reflexivity].
  now apply (proj1 (Forall_forall _ l) H).
Qed.

(** Without quotes and backslashes the tokenizer stays in its two plain
    states and returns tokens. *)
Lemma run_no_quoting (input : string) :
  no_quoting input = true ->
  forall quoted token,
    (exists toks, Shlex.run Shlex.Between quoted token input = inr toks)
    /\ (exists toks, Shlex.run Shlex.InWord quoted token input = inr toks).
Proof.
  unfold no_quoting.
  induction input as [|c rest IH]; intros H quoted token.
  - simpl. eauto.
  - simpl in H. apply andb_true_iff in H as [Hc Hrest].
    apply negb_true_iff, orb_false_iff in Hc as [Hq He].
    specialize (IH Hrest).
    assert (Hpush : forall t q k,
               exists toks,
                 Shlex.push t (Shlex.run Shlex.Between q k rest) = inr toks).
    { intros t q k. destruct (proj1 (IH q k)) as [toks ->]. simpl. eauto. }
    cbn [Shlex.run]. rewrite Hq, He.
    split; destruct (Shlex.whitespace c);
      try destruct (nonempty token || quoted);
      solve [apply Hpush | apply IH].
Qed.

Lemma split_no_quoting (arg : string) :
  no_quoting arg = true -> exists toks, Shlex.split arg = inr toks.
Proof. intros H. apply (run_no_quoting arg H). Qed.

(** A handler that raises was given an argument the tokenizer refuses. *)
Lemma handlers_raise_in_split (sh : Shell) (arg msg : string) :
  (ctl (do_create sh arg) = Uncaught msg
   \/ ctl (do_show sh arg) = Uncaught msg
   \/ ctl (do_destroy sh arg) = Uncaught msg
   \/ ctl (do_all sh arg) = Uncaught msg
   \/ ctl (do_update sh arg) = Uncaught msg
   \/ ctl (do_count sh arg) = Uncaught msg) ->
  Shlex.split arg = inl msg.
Proof.
  unfold do_create, do_show, do_destroy, do_all, do_update, do_count.
  destruct (Shlex.split arg) as [m|args].
  - simpl. intros [H|[H|[H|[H|[H|H]]]]]; congruence.
  - intros H. exfalso.
    repeat match type of H with
           | _ \/ _ => destruct H as [H|H]
           end;
      repeat match type of H with
             | ctl (if ?b then _ else _) = _ => destruct b
             | ctl (match ?x with _ => _ end) = _ => destruct x
             end; discriminate H.
Qed.

Lemma handlers_no_crash (sh : Shell) (arg msg : string) :
  no_quoting arg = true ->
  ctl (do_create sh arg) <> Uncaught msg
  /\ ctl (do_show sh arg) <> Uncaught msg
  /\ ctl (do_destroy sh arg) <> Uncaught msg
  /\ ctl (do_all sh arg) <> Uncaught msg
  /\ ctl (do_update sh arg) <> Uncaught msg
  /\ ctl (do_count sh arg) <> Uncaught msg.
Proof.
  intros Harg. destruct (split_no_quoting arg Harg) as [toks E].
  repeat split; intros H;
    pose proof (handlers_raise_in_split sh arg msg) as Hs;
    rewrite E in Hs; (discriminate Hs; tauto).
Qed.

Lemma no_quoting_app (a b : string) :
  no_quoting a = true -> no_quoting b = true -> no_quoting (a ++ b) = true.
Proof.
  unfold no_quoting. intros Ha Hb. now rewrite all_chars_app, Ha, Hb.
Qed.

Lemma no_quoting_strip (c : ascii) (s : string) :
  no_quoting s = true -> no_quoting (strip c s) = true.
Proof. apply all_chars_strip_by. Qed.

(** The argument strings [default] builds hold only characters of the
    line and spaces. *)
Lemma update_rewrite_no_quoting (class_arg text arg : string) :
  no_quoting class_arg = true -> no_quoting text = true ->
  update_rewrite class_arg text = Some arg -> no_quoting arg = true.
Proof.
  intros Hclass Htext. unfold update_rewrite.
  pose proof (all_chars_split_on _ "," text Htext) as Hall.
  destruct (nth_error (split_on "," text) 1) as [a1|] eqn:E1;
    [|discriminate].
  destruct (nth_error (split_on "," text) 2) as [a2|] eqn:E2;
    [|discriminate].
  intros [= <-].
  pose proof (all_chars_hd _ _ Hall) as H0.
  pose proof (all_chars_nth_error _ _ _ _ Hall E1) as H1.
  pose proof (all_chars_nth_error _ _ _ _ Hall E2) as H2.
  repeat (apply no_quoting_app; [|apply (no_quoting_app " "); [reflexivity|]]);
    repeat apply no_quoting_strip; assumption.
Qed.

Lemma default_no_crash (sh : Shell) (line msg : string) :
  no_quoting line = true -> ctl (default sh line) <> Uncaught msg.
Proof.
  intros Hline. unfold default.
  pose proof (all_chars_split_on _ "." line Hline) as Hdots.
  pose proof (all_chars_hd _ _ Hdots) as Hclass.
  pose proof (all_chars_nth _ _ 1 Hdots) as Hsecond.
  pose proof (all_chars_split_on _ "(" _ Hsecond) as Hparens.
  assert (Hid : forall a1 c c',
             nth_error (split_on "(" (nth 1 (split_on "." line) "")) 1
             = Some a1 ->
             no_quoting (hd "" (split_on "." line) ++ " "
                            ++ strip c (strip c' (hd "" (split_on ")" a1))))
             = true).
  { intros a1 c c' E.
    pose proof (all_chars_nth_error _ _ _ _ Hparens E) as Ha1.
    apply no_quoting_app; [exact Hclass|].
    apply (no_quoting_app " "); [reflexivity|].
    do 2 apply no_quoting_strip.
    apply all_chars_hd. now apply all_chars_split_on. }
  destruct (Nat.eqb _ 1); [discriminate|].
  destruct (_ =? "all"); [now apply handlers_no_crash|].
  destruct (_ =? "count"); [now apply handlers_no_crash|].
  destruct (_ =? "show").
  { destruct (nth_error _ 1) as [a1|] eqn:E; [|discriminate].
    apply handlers_no_crash. now apply Hid. }
  destruct (_ =? "destroy").
  { destruct (nth_error _ 1) as [a1|] eqn:E; [|discriminate].
    apply handlers_no_crash. now apply Hid. }
  destruct (_ =? "update"); [|discriminate].
  destruct (nth_error _ 1) as [a1|] eqn:E; [|discriminate].
  destruct (update_rewrite _ a1) as [arg|] eqn:Erw; [|discriminate].
  apply handlers_no_crash.
  apply (update_rewrite_no_quoting (hd "" (split_on "." line)) a1 arg);
    try assumption.
  unfold no_quoting. eapply all_chars_nth_error; [exact Hparens|exact E].
Qed.

(** X4: a line that holds no quote and no backslash never makes the loop
    crash: [onecmd] returns, to continue or to stop, and raises
    nothing. *)
Theorem X4_no_quoting_no_crash (sh : Shell) (line : string) :
  no_quoting line = true ->
  ctl (onecmd sh line) = Continue \/ ctl (onecmd sh line) = Stop.
Proof.
  intros Hline.
  assert (Hno : forall msg, ctl (onecmd sh line) <> Uncaught msg).
  { intros msg. unfold onecmd, parseline.
    pose proof (all_chars_strip_by _ isspace line Hline) as Hstrip.
    fold (strip_ws line) in Hstrip.
    destruct (strip_ws line) as [|x rest]; [discriminate|].
    destruct (Ascii.eqb x "!"); [now apply default_no_crash|].
    set (l := if Ascii.eqb x "?" then "help " ++ rest else String x rest).
    assert (Hl : no_quoting l = true).
    { unfold l. destruct (Ascii.eqb x "?"); [|exact Hstrip].
      apply (no_quoting_app "help "); [reflexivity|].
      unfold no_quoting in Hstrip. simpl in Hstrip.
      now apply andb_true_iff in Hstrip as [_ Hrest]. }
    destruct (all_chars_span _ identchars l Hl) as [_ Harg].
    destruct (span identchars l) as [cmd arg]. simpl in Harg.
    apply (all_chars_strip_by _ isspace) in Harg.
    fold (strip_ws arg) in Harg.
    destruct l as [|y l'] eqn:El; [discriminate|].
    set (sh0 := with_lastcmd _ sh).
    destruct (cmd =? ""); [now apply default_no_crash|].
    destruct (cmd =? "quit"); [unfold do_quit; now destruct (_ =? "")|].
    destruct (cmd =? "EOF"); [discriminate|].
    destruct (cmd =? "create"); [now apply handlers_no_crash|].
    destruct (cmd =? "show"); [now apply handlers_no_crash|].
    destruct (cmd =? "destroy"); [now apply handlers_no_crash|].
    destruct (cmd =? "all"); [now apply handlers_no_crash|].
    destruct (cmd =? "update"); [now apply handlers_no_crash|].
    destruct (cmd =? "count"); [now apply handlers_no_crash|].
    destruct (cmd =? "help").
    { unfold do_help. destruct (negb _); [discriminate|].
      destruct (has_command _); discriminate. }
    now apply default_no_crash. }
  destruct (ctl (onecmd sh line)) as [| |msg]; [now left|now right|].
  now elim (Hno msg).
Qed.

End QuotingFacts.

(** ** The handlers and the mapping *)

Section StoreFacts.

Context {M : Models}.

(** The scan of [show], for a recognized class name and an identifier. *)
Lemma do_show_scan (sh : Shell) (arg : string) (c : cls) (id : string)
      (rest : list string) :
  Shlex.split arg = inr (cls_name c :: id :: rest) ->
  printed (do_show sh arg)
  = match filter (fun o => isinstance o c && (obj_id o =? id))
                 (dict_values (objects sh)) with
    | o :: _ => [Line (obj_str o)]
    | [] => [no_instance_found]
    end.
Proof.
  intros Hsplit. unfold do_show. rewrite Hsplit, cls_name_nonempty.
  cbn -[key_of]. rewrite class_mapping_name. now destruct (filter _ _).
Qed.

(** What the key says about the object, in a mapping whose keys match. *)
Lemma keyed_object (sh : Shell) (c : cls) (id : string) (o : obj) :
  keys_match sh ->
  dict_get (key_of (cls_name c) id) (objects sh) = Some o ->
  obj_class o = c /\ obj_id o = id /\ In o (dict_values (objects sh)).
Proof.
  intros Hkeys Hget. apply dict_get_In in Hget.
  pose proof (Hkeys _ _ Hget) as Hk. apply key_of_inj in Hk as [Hc Hi].
  repeat split; try congruence. now apply In_dict_values in Hget.
Qed.

(** X8: [show] agrees with the key lookup of [destroy] and [update] on the
    objects of the named class itself.  In a mapping whose keys match its
    objects and whose identifiers are unique, if the key
    [<ClassName>.<id>] is there, [show <ClassName> <id>] prints the
    object stored under it, and that object has the class and the
    identifier that were typed. *)
Theorem X8_show_prints_keyed_object (sh : Shell) (arg : string) (c : cls)
        (id : string) (rest : list string) (o : obj) :
  Shlex.split arg = inr (cls_name c :: id :: rest) ->
  keys_match sh -> ids_unique sh ->
  dict_get (key_of (cls_name c) id) (objects sh) = Some o ->
  printed (do_show sh arg) = [Line (obj_str o)]
  /\ obj_class o = c /\ obj_id o = id.
Proof.
  intros Hsplit Hkeys Huniq Hget.
  destruct (keyed_object sh c id o Hkeys Hget) as (Hc & Hi & Hin).
  refine (conj _ (conj Hc Hi)).
  rewrite (do_show_scan sh arg c id rest Hsplit). subst id.
  assert (Hinst : isinstance o c = true).
  { unfold isinstance. now rewrite Hc, cls_eqb_refl. }
  destruct (show_scan_unique sh c o Huniq Hin Hinst) as [l ->].
  reflexivity.
Qed.

(** X9: a successful [destroy] removes exactly the entry of its key and
    saves.  With unique keys, when the key built from the first two
    tokens is in the mapping, [destroy] prints nothing, the key is gone
    afterwards, every other key maps to what it mapped to, the mapping is
    one entry shorter, the file holds the new mapping after one save, and
    a second [destroy] with the same arguments reports that no instance
    was found.  The class name is not checked against the registry. *)
Theorem X9_destroy_removes_one_entry (sh : Shell) (arg : string)
        (args : list string) (o : obj) :
  Shlex.split arg = inr args ->
  no_class_name args = false -> (2 <= length args)%nat ->
  let key := key_of (hd "" args) (nth 1 args "") in
  keys_unique sh ->
  dict_get key (objects sh) = Some o ->
  let r := do_destroy sh arg in
  printed r = [] /\ ctl r = Continue
  /\ dict_get key (objects (after r)) = None
  /\ (forall k, k <> key ->
        dict_get k (objects (after r)) = dict_get k (objects sh))
  /\ length (objects sh) = S (length (objects (after r)))
  /\ saves (after r) = S (saves sh)
  /\ file (after r) = objects (after r)
  /\ printed (do_destroy (after r) arg) = [no_instance_found].
Proof.
  intros Hsplit Hname Hlen key Huniq Hget r.
  assert (Hr : r = silent (storage_save
                             (with_objects (dict_del key (objects sh)) sh))).
  { unfold r, do_destroy. rewrite Hsplit, Hname.
    apply Nat.ltb_ge in Hlen. rewrite Hlen. fold key. now rewrite Hget. }
  assert (Hgone : dict_get key (dict_del key (objects sh)) = None).
  { apply dict_get_None. now apply dict_del_gone. }
  rewrite Hr. simpl.
  refine (conj eq_refl (conj eq_refl (conj Hgone (conj _ (conj _ _))))).
  - intros k Hk. now apply dict_get_del_other.
  - now apply (dict_del_length key _ o).
  - refine (conj eq_refl (conj eq_refl _)).
    unfold do_destroy. rewrite Hsplit, Hname.
    apply Nat.ltb_ge in Hlen. rewrite Hlen. fold key. simpl.
    now rewrite Hgone.
Qed.

(** X10: after a successful [destroy <ClassName> <id>], [show] with the
    same arguments reports that no instance was found, in a mapping with
    unique keys and unique identifiers whose keys match its objects. *)
Theorem X10_destroy_then_show (sh : Shell) (arg : string) (c : cls)
        (id : string) (rest : list string) (o : obj) :
  Shlex.split arg = inr (cls_name c :: id :: rest) ->
  keys_match sh -> ids_unique sh -> keys_unique sh ->
  dict_get (key_of (cls_name c) id) (objects sh) = Some o ->
  printed (do_destroy sh arg) = []
  /\ printed (do_show (after (do_destroy sh arg)) arg) = [no_instance_found].
Proof.
  intros Hsplit Hkeys Huniq Hnodup Hget.
  set (key := key_of (cls_name c) id) in *.
  assert (Hr : do_destroy sh arg
               = silent (storage_save
                           (with_objects (dict_del key (objects sh)) sh))).
  { unfold do_destroy. rewrite Hsplit, cls_name_nonempty. cbn -[key_of].
    fold key. now rewrite Hget. }
  rewrite Hr. split; [reflexivity|].
  rewrite (do_show_scan _ arg c id rest Hsplit). cbn [after silent objects
    storage_save with_objects].
  destruct (keyed_object sh c id o Hkeys Hget) as (Hc & Hi & Hin).
  destruct (filter _ _) as [|o' l] eqn:E; [reflexivity|]. exfalso.
  assert (Ho' : In o' (o' :: l)) by now left.
  rewrite <- E in Ho'. apply filter_In in Ho' as [Hin' Hp].
  apply andb_true_iff in Hp as [_ Hid]. apply String.eqb_eq in Hid.
  unfold dict_values in Hin'. apply in_map_iff in Hin' as ([k x] & Hx & He).
  simpl in Hx. subst x.
  pose proof (dict_del_subset key _ _ He) as He'.
  assert (o' = o).
  { apply Huniq; [now apply In_dict_values in He'|exact Hin|congruence]. }
  subst o'.
  assert (k = key).
  { rewrite (Hkeys _ _ He'). unfold key. congruence. }
  subst k. apply (dict_del_gone key (objects sh) Hnodup).
  now apply (in_map fst) in He.
Qed.

(** X11: a successful [update] replaces the object under its key and
    touches nothing else.  When the key built from the first two tokens
    maps to [o], and setting the attribute and saving the object succeed
    with [o2], then [update] prints nothing, the key maps to [o2], every
    other key maps to what it mapped to, the keys and their order are
    unchanged (also when the attribute set is [id]), and the file holds
    the new mapping after one save. *)
Theorem X11_update_replaces_in_place (sh : Shell) (arg : string)
        (args : list string) (o o1 o2 : obj) :
  Shlex.split arg = inr args ->
  no_class_name args = false -> (4 <= length args)%nat ->
  let key := key_of (hd "" args) (nth 1 args "") in
  dict_get key (objects sh) = Some o ->
  setattr o (nth 2 args "") (nth 3 args "") = inr o1 ->
  touch o1 = inr o2 ->
  let r := do_update sh arg in
  printed r = [] /\ ctl r = Continue
  /\ dict_get key (objects (after r)) = Some o2
  /\ (forall k, k <> key ->
        dict_get k (objects (after r)) = dict_get k (objects sh))
  /\ map fst (objects (after r)) = map fst (objects sh)
  /\ saves (after r) = S (saves sh)
  /\ file (after r) = objects (after r).
Proof.
  intros Hsplit Hname Hlen key Hget Hset Htouch r.
  assert (Hr : r = silent (storage_save
                             (with_objects (dict_set key o2 (objects sh))
                                           sh))).
  { unfold r, do_update. rewrite Hsplit, Hname.
    assert (H2 : Nat.ltb (length args) 2 = false) by (apply Nat.ltb_ge; lia).
    assert (H3 : Nat.ltb (length args) 3 = false) by (apply Nat.ltb_ge; lia).
    assert (H4 : Nat.ltb (length args) 4 = false) by (apply Nat.ltb_ge; lia).
    rewrite H2. fold key. rewrite Hget, H3, H4, Hset, Htouch. reflexivity. }
  rewrite Hr. simpl.
  refine (conj eq_refl (conj eq_refl (conj _ (conj _ (conj _ _))))).
  - apply dict_get_set_same.
  - intros k Hk. now apply dict_get_set_other.
  - rewrite dict_set_keys.
    assert (Hin : existsb (String.eqb key) (map fst (objects sh)) = true).
    { apply existsb_eqb_In. apply dict_get_In in Hget.
      now apply (in_map fst) in Hget. }
    now rewrite Hin.
  - now split.
Qed.

End StoreFacts.

(** ** Creation, surplus tokens, the two listings *)

Section MoreStoreFacts.

Context {M : Models}.

Lemma dict_set_new (key : string) (o : obj) (d : objdict) :
  dict_get key d = None -> dict_set key o d = (d ++ [(key, o)])%list.
Proof.
  induction d as [|[k o'] d IH]; simpl; [reflexivity|].
  destruct (k =? key); [discriminate|]. intros H. now rewrite (IH H).
Qed.

(** X12: [create <ClassName>] registers one new object and saves.  When
    saving the new object succeeds and its key is not yet in the mapping,
    [create] prints the identifier of the object, appends the object under
    its key at the end of the mapping, leaves the entries that were there
    as they were, and the file holds the new mapping after one save.
    Tokens after the class name play no part. *)
Theorem X12_create_appends (sh : Shell) (arg : string) (c : cls)
        (rest : list string) (o : obj) :
  Shlex.split arg = inr (cls_name c :: rest) ->
  let new_instance := construct c (draws sh) in
  let key := key_of (cls_name (obj_class new_instance)) (obj_id new_instance) in
  touch new_instance = inr o ->
  dict_get key (objects sh) = None ->
  let r := do_create sh arg in
  printed r = [Line (obj_id o)] /\ ctl r = Continue
  /\ objects (after r) = (objects sh ++ [(key, o)])%list
  /\ dict_get key (objects (after r)) = Some o
  /\ (forall k, k <> key ->
        dict_get k (objects (after r)) = dict_get k (objects sh))
  /\ draws (after r) = S (draws sh)
  /\ saves (after r) = S (saves sh)
  /\ file (after r) = objects (after r).
Proof.
  intros Hsplit new_instance key Htouch Hfresh r.
  assert (Hr : r = mkOutcome
                     (storage_save
                        (mkShell (dict_set key o (objects sh)) (file sh)
                                 (saves sh) (S (draws sh)) (lastcmd sh)))
                     [Line (obj_id o)] Continue).
  { unfold r, do_create. rewrite Hsplit, cls_name_nonempty.
    cbn [hd]. rewrite class_mapping_name.
    fold new_instance. fold key. now rewrite Htouch. }
  rewrite Hr. simpl.
  refine (conj eq_refl (conj eq_refl (conj _ (conj _ (conj _ _))))).
  - now apply dict_set_new.
  - apply dict_get_set_same.
  - intros k Hk. now apply dict_get_set_other.
  - now repeat split.
Qed.

(** X13: [create] followed by [show] with the class name and the printed
    identifier prints the new object, provided the object that was saved
    has the class that was named and no object that was already live has
    its identifier. *)
Theorem X13_create_then_show (sh : Shell) (arg shown : string) (c : cls)
        (rest rest' : list string) (o : obj) :
  Shlex.split arg = inr (cls_name c :: rest) ->
  touch (construct c (draws sh)) = inr o ->
  obj_class o = c ->
  (forall o', In o' (dict_values (objects sh)) -> obj_id o' <> obj_id o) ->
  Shlex.split shown = inr (cls_name c :: obj_id o :: rest') ->
  printed (do_create sh arg) = [Line (obj_id o)]
  /\ printed (do_show (after (do_create sh arg)) shown) = [Line (obj_str o)].
Proof.
  intros Hsplit Htouch Hclass Hfresh Hshown.
  set (new_instance := construct c (draws sh)) in *.
  set (key := key_of (cls_name (obj_class new_instance))
                     (obj_id new_instance)).
  assert (Hr : do_create sh arg
               = mkOutcome
                   (storage_save
                      (mkShell (dict_set key o (objects sh)) (file sh)
                               (saves sh) (S (draws sh)) (lastcmd sh)))
                   [Line (obj_id o)] Continue).
  { unfold do_create. rewrite Hsplit, cls_name_nonempty.
    cbn [hd]. rewrite class_mapping_name.
    fold new_instance. fold key. now rewrite Htouch. }
  rewrite Hr. split; [reflexivity|].
  rewrite (do_show_scan _ shown c (obj_id o) rest' Hshown).
  cbn [after objects storage_save].
  destruct (filter _ _) as [|o' l] eqn:E.
  - assert (Ho : In o []).
    { rewrite <- E. apply filter_In. split; [apply dict_set_holds|].
      unfold isinstance. now rewrite Hclass, cls_eqb_refl, String.eqb_refl. }
    destruct Ho.
  - assert (Ho' : In o' (o' :: l)) by now left.
    rewrite <- E in Ho'. apply filter_In in Ho' as [Hin Hp].
    apply andb_true_iff in Hp as [_ Hid]. apply String.eqb_eq in Hid.
    destruct (dict_set_values _ _ _ _ Hin) as [->|Hold]; [reflexivity|].
    now elim (Hfresh o' Hold).
Qed.

(** X14: tokens beyond the ones a handler reads are ignored.  Two
    argument strings with the same first token are the same to [create],
    [all] and [count]; with the same first two tokens, to [show] and
    [destroy]; with the same first four tokens, to [update]. *)
Theorem X14_surplus_tokens_ignored (sh : Shell) (a b : string)
        (t1 t2 t3 t4 : string) (more more' : list string) :
  (Shlex.split a = inr (t1 :: more) -> Shlex.split b = inr (t1 :: more') ->
     do_create sh a = do_create sh b
     /\ do_all sh a = do_all sh b
     /\ do_count sh a = do_count sh b)
  /\ (Shlex.split a = inr (t1 :: t2 :: more) ->
      Shlex.split b = inr (t1 :: t2 :: more') ->
      do_show sh a = do_show sh b /\ do_destroy sh a = do_destroy sh b)
  /\ (Shlex.split a = inr (t1 :: t2 :: t3 :: t4 :: more) ->
      Shlex.split b = inr (t1 :: t2 :: t3 :: t4 :: more') ->
      do_update sh a = do_update sh b).
Proof.
  unfold do_create, do_all, do_count, do_show, do_destroy, do_update.
  refine (conj _ (conj _ _)); intros -> ->; repeat split.
Qed.

Lemma filter_none {A : Type} (f : A -> bool) (l : list A) :
  (forall x, In x l -> f x = false) -> filter f l = [].
Proof.
  induction l as [|x l IH]; simpl; [reflexivity|]. intros H.
  rewrite (H x) by now left. apply IH. intros y Hy. apply H. now right.
Qed.

Lemma cls_name_eqb (c c' : cls) :
  (cls_name c =? cls_name c') = cls_eqb c' c.
Proof. now destruct c, c'. Qed.

(** X17: [count] is never behind [all].  For a recognized class name,
    the number [count] prints is at least the length of the list [all]
    prints for the same name, because [count] also counts the objects of
    subclasses; the two are equal when every live instance of the class
    is of that very class; and when [all] reports that the class does not
    exist, no live object has exactly that class. *)
Theorem X17_count_covers_all (sh : Shell) (arg : string) (c : cls)
        (rest : list string) :
  Shlex.split arg = inr (cls_name c :: rest) ->
  exists n,
    printed (do_count sh arg) = [IntLine n]
    /\ (forall l, printed (do_all sh arg) = [ListLine l] ->
          (length l <= n)%nat
          /\ ((forall o, In o (dict_values (objects sh)) ->
                 isinstance o c = true -> obj_class o = c) ->
              length l = n))
    /\ (printed (do_all sh arg) = [class_doesnt_exist] ->
        forall o, In o (dict_values (objects sh)) -> obj_class o <> c).
Proof.
  intros Hsplit.
  set (live := dict_values (objects sh)).
  set (exact := filter (fun o => cls_eqb (obj_class o) c) live).
  set (n := length (filter (fun o => isinstance o c) live)).
  exists n.
  assert (Hall : printed (do_all sh arg)
                 = match exact with
                   | [] => [class_doesnt_exist]
                   | _ => [ListLine (map obj_str exact)]
                   end).
  { unfold do_all. rewrite Hsplit, cls_name_nonempty. cbn [hd].
    fold live.
    rewrite (filter_ext _ (fun o => cls_eqb (obj_class o) c))
      by (intros o; apply cls_name_eqb).
    fold exact. now destruct exact. }
  set (derived := filter (fun o => negb (cls_eqb (obj_class o) c)
                                   && existsb (cls_eqb c)
                                        (ancestors (obj_class o))) live).
  assert (Hsum : n = (length exact + length derived)%nat)
    by (unfold n, exact, derived, isinstance; apply filter_or_length).
  refine (conj _ (conj _ _)).
  - unfold do_count. rewrite Hsplit, cls_name_nonempty. cbn [hd].
    now rewrite class_mapping_name.
  - intros l Hl. rewrite Hall in Hl.
    destruct exact as [|x xs] eqn:E; [discriminate|].
    injection Hl as <-. simpl in Hsum |- *.
    rewrite ?length_map. split; [lia|].
    intros Hexact.
    assert (Hnone : derived = []).
    { apply filter_none. intros y Hin.
      destruct (cls_eqb (obj_class y) c) eqn:Hy; [reflexivity|]. simpl.
      destruct (existsb _ _) eqn:Hanc; [|reflexivity].
      assert (Hc : obj_class y = c).
      { apply Hexact; [exact Hin|]. unfold isinstance.
        now rewrite Hanc, orb_true_r. }
      rewrite Hc, cls_eqb_refl in Hy. discriminate Hy. }
    rewrite Hsum, Hnone. simpl. lia.
  - intros Herr o Hin Hc. rewrite Hall in Herr.
    destruct exact as [|x xs] eqn:E; [|discriminate].
    assert (Ho : In o []).
    { rewrite <- E. apply filter_In. split; [exact Hin|].
      now rewrite Hc, cls_eqb_refl. }
    destruct Ho.
Qed.

(** X18: [update] never moves an entry to another key.  If the attribute
    it sets is the identifier itself, so that the stored object ends with
    an identifier other than the one in its key, the keys of the mapping
    do not match its objects any more. *)
Theorem X18_update_of_id_keeps_key (sh : Shell) (arg : string) (c : cls)
        (id : string) (args : list string) (o o1 o2 : obj) :
  Shlex.split arg = inr (cls_name c :: id :: args) ->
  (2 <= length args)%nat ->
  dict_get (key_of (cls_name c) id) (objects sh) = Some o ->
  setattr o (nth 0 args "") (nth 1 args "") = inr o1 ->
  touch o1 = inr o2 ->
  obj_id o2 <> id ->
  dict_get (key_of (cls_name c) id) (objects (after (do_update sh arg)))
  = Some o2
  /\ ~ keys_match (after (do_update sh arg)).
Proof.
  intros Hsplit Hlen Hget Hset Htouch Hid.
  set (key := key_of (cls_name c) id) in *.
  assert (Hr : do_update sh arg
               = silent (storage_save
                           (with_objects (dict_set key o2 (objects sh)) sh))).
  { unfold do_update. rewrite Hsplit, cls_name_nonempty.
    destruct args as [|n [|v args]]; simpl in Hlen; try lia.
    cbn -[key_of]. cbn in Hset. fold key.
    now rewrite Hget, Hset, Htouch. }
  rewrite Hr. cbn [after silent objects storage_save with_objects].
  split; [apply dict_get_set_same|].
  intros Hkeys.
  assert (Hin : In (key, o2) (dict_set key o2 (objects sh))).
  { apply dict_get_In, dict_get_set_same. }
  apply Hkeys in Hin. apply key_of_inj in Hin as [_ Hi]. congruence.
Qed.

End MoreStoreFacts.

(** ** The dotted notation *)

Section DottedFacts.

Context {M : Models}.

Lemma split_on_other (c a : ascii) (s : string) :
  Ascii.eqb a c = false ->
  split_on c (String a s)
  = String a (hd "" (split_on c s)) :: tl (split_on c s).
Proof.
  intros H. simpl. rewrite H.
  destruct (split_on c s) eqn:E; [|reflexivity].
  now apply PyStrFacts.split_on_not_nil in E.
Qed.

(** The first piece of a text that starts with a prefix free of the
    separator. *)
Lemma hd_split_on_prefix (c : ascii) (p s : string) :
  mem c p = false ->
  hd "" (split_on c (p ++ s)) = p ++ hd "" (split_on c s).
Proof.
  induction p as [|a p IH]; intros H; [reflexivity|].
  simpl in H. apply orb_false_iff in H as [Ha Hp].
  cbn [append]. rewrite (split_on_other c a _ Ha). cbn [hd].
  now rewrite (IH Hp).
Qed.

(** What [default] reads off a line [<class>.<verb>(<text>]: the class
    name, the fact that there is a dot, and the verb, whatever the text
    is. *)
Lemma default_reads (class_arg verb text : string) :
  mem "." class_arg = false ->
  mem "." verb = false -> mem "(" verb = false ->
  let line := class_arg ++ String "." (verb ++ String "(" text) in
  hd "" (split_on "." line) = class_arg
  /\ Nat.eqb (length (split_on "." line)) 1 = false
  /\ hd "" (split_on "(" (nth 1 (split_on "." line) "")) = verb.
Proof.
  intros Hclass Hdot Hparen line. unfold line.
  rewrite PyStrFacts.split_on_first by exact Hclass.
  destruct (split_on "." (verb ++ String "(" text)) as [|second more] eqn:E.
  { now apply PyStrFacts.split_on_not_nil in E. }
  refine (conj eq_refl (conj eq_refl _)). cbn [nth].
  assert (Hsecond : second = verb ++ hd "" (split_on "." (String "(" text))).
  { rewrite <- (hd_split_on_prefix "." verb _ Hdot). now rewrite E. }
  rewrite (split_on_other "." "(" text eq_refl) in Hsecond.
  cbn [hd] in Hsecond. rewrite Hsecond.
  now rewrite PyStrFacts.split_on_first by exact Hparen.
Qed.

(** X15: in dotted notation [all] and [count] take no argument: whatever
    follows the opening parenthesis, a closing parenthesis or not,
    [<class>.all(...] is handled as [all <class>] and
    [<class>.count(...] as [count <class>]; the parentheses themselves
    may be left out. *)
Theorem X15_dotted_all_and_count (sh : Shell) (class_arg text : string) :
  mem "." class_arg = false ->
  default sh (class_arg ++ ".all(" ++ text) = do_all sh class_arg
  /\ default sh (class_arg ++ ".count(" ++ text) = do_count sh class_arg
  /\ default sh (class_arg ++ ".all") = do_all sh class_arg
  /\ default sh (class_arg ++ ".count") = do_count sh class_arg.
Proof.
  intros Hclass. refine (conj _ (conj _ (conj _ _))).
  - destruct (default_reads class_arg "all" text Hclass eq_refl eq_refl)
      as (H0 & H1 & H2).
    unfold default. cbv zeta.
    change (class_arg ++ ".all(" ++ text)
      with (class_arg ++ String "." ("all" ++ String "(" text)).
    now rewrite H0, H1, H2.
  - destruct (default_reads class_arg "count" text Hclass eq_refl eq_refl)
      as (H0 & H1 & H2).
    unfold default. cbv zeta.
    change (class_arg ++ ".count(" ++ text)
      with (class_arg ++ String "." ("count" ++ String "(" text)).
    now rewrite H0, H1, H2.
  - unfold default. cbv zeta.
    change (class_arg ++ ".all") with (class_arg ++ String "." "all").
    now rewrite PyStrFacts.split_on_first by exact Hclass.
  - unfold default. cbv zeta.
    change (class_arg ++ ".count") with (class_arg ++ String "." "count").
    now rewrite PyStrFacts.split_on_first by exact Hclass.
Qed.

Lemma do_destroy_tokens (sh : Shell) (a b : string) :
  Shlex.split a = Shlex.split b -> do_destroy sh a = do_destroy sh b.
Proof. unfold do_destroy. now intros ->. Qed.

Lemma dotted_destroy_plain (sh : Shell) (class_arg id : string) :
  plain_word class_arg = true -> plain_word id = true ->
  default sh (class_arg ++ ".destroy(" ++ quoted id ++ ")")
  = do_destroy sh (class_arg ++ " " ++ id).
Proof.
  intros Hclass Hid.
  assert (Hmem : forall c, plain c = false -> Ascii.eqb dquote c = false ->
                           mem c (quoted id) = false).
  { intros c Hc Hq. rewrite PyStrFacts.mem_quoted by exact Hq.
    now apply PyStrFacts.plain_word_mem. }
  destruct (default_reads class_arg "destroy" (quoted id ++ ")"))
    as (H0 & H1 & H2);
    [now apply PyStrFacts.plain_word_mem|reflexivity|reflexivity|].
  unfold default. cbv zeta.
  change (class_arg ++ ".destroy(" ++ quoted id ++ ")")
    with (class_arg ++ String "."
            ("destroy" ++ String "(" (quoted id ++ ")"))).
  rewrite H0, H1, H2. cbn [String.eqb Ascii.eqb Bool.eqb].
  rewrite PyStrFacts.split_on_first
    by now apply PyStrFacts.plain_word_mem.
  rewrite (PyStrFacts.split_on_absent "." _)
    by (cbn [append mem Ascii.eqb Bool.eqb orb];
        rewrite PyStrFacts.mem_app, Hmem; reflexivity).
  cbn [nth].
  rewrite PyStrFacts.split_on_first by reflexivity.
  rewrite (PyStrFacts.split_on_absent "(" _)
    by (rewrite PyStrFacts.mem_app, Hmem; reflexivity).
  cbn [nth_error].
  rewrite PyStrFacts.split_on_first by (apply Hmem; reflexivity).
  cbn [hd].
  rewrite PyStrFacts.strip_quoted
    by (now apply PyStrFacts.plain_word_mem).
  rewrite PyStrFacts.strip_absent
    by (now apply PyStrFacts.plain_word_mem).
  reflexivity.
Qed.

(** X16: where the dotted notation does agree with the verb-first form.
    For a class name, an identifier, an attribute name and a value that
    are plain words (no white space, quote, backslash, dot, comma or
    parenthesis), [<class>.show("<id>")], [<class>.destroy("<id>")] and
    [<class>.update("<id>", "<attr>", "<val>")] do exactly what
    [show <class> <id>], [destroy <class> <id>] and
    [update <class> <id> <attr> <val>] do. *)
Theorem X16_dotted_forms_on_plain_words (sh : Shell)
        (class_arg id attr val : string) :
  plain_word class_arg = true -> plain_word id = true ->
  plain_word attr = true -> plain_word val = true ->
  default sh (class_arg ++ ".show(" ++ quoted id ++ ")")
  = do_show sh (class_arg ++ " " ++ id)
  /\ default sh (class_arg ++ ".destroy(" ++ quoted id ++ ")")
     = do_destroy sh (class_arg ++ " " ++ id)
  /\ default sh (class_arg ++ ".update(" ++ quoted id ++ ", " ++ quoted attr
                           ++ ", " ++ quoted val ++ ")")
     = do_update sh (class_arg ++ " " ++ id ++ " " ++ attr ++ " " ++ val)
  /\ Shlex.split (class_arg ++ " " ++ id) = inr [class_arg; id]
  /\ Shlex.split (class_arg ++ " " ++ id ++ " " ++ attr ++ " " ++ val)
     = inr [class_arg; id; attr; val].
Proof.
  intros Hclass Hid Hattr Hval.
  refine (conj _ (conj _ (conj _ (conj _ _)))).
  - now apply dotted_show_plain.
  - now apply dotted_destroy_plain.
  - now apply dotted_update_plain.
  - now apply ShlexFacts.split_two_words.
  - now apply ShlexFacts.split_four_words.
Qed.

(** X19: what the dotted notation answers when a piece is missing.  The
    verbs [show], [destroy] and [update] without an opening parenthesis,
    and [update] with fewer than three pieces between commas, get the
    unknown-syntax message and change nothing: dotted [update] with an
    identifier and an attribute name but no value is not told that the
    value is missing, as the verb-first form is. *)
Theorem X19_dotted_missing_pieces (sh : Shell) (class_arg verb text : string) :
  mem "." class_arg = false ->
  (In verb ["show"; "destroy"; "update"] ->
     default sh (class_arg ++ "." ++ verb)
     = say sh (unknown_syntax (class_arg ++ "." ++ verb)))
  /\ (mem "." text = false -> mem "(" text = false ->
      (length (split_on "," text) < 3)%nat ->
      default sh (class_arg ++ ".update(" ++ text)
      = say sh (unknown_syntax (class_arg ++ ".update(" ++ text))).
Proof.
  intros Hclass. split.
  - intros Hverb. unfold default. cbv zeta.
    change (class_arg ++ "." ++ verb) with (class_arg ++ String "." verb).
    rewrite PyStrFacts.split_on_first by exact Hclass.
    destruct Hverb as [<-|[<-|[<-|[]]]]; reflexivity.
  - intros Hdot Hparen Hlen.
    assert (Hrw : update_rewrite class_arg text = None).
    { unfold update_rewrite.
      destruct (split_on "," text) as [|a [|b [|c l]]]; simpl in *;
        try reflexivity; lia. }
    unfold default. cbv zeta.
    change (class_arg ++ ".update(" ++ text)
      with (class_arg ++ String "." ("update(" ++ text)).
    rewrite PyStrFacts.split_on_first by exact Hclass.
    rewrite (PyStrFacts.split_on_absent "." ("update(" ++ text))
      by (cbn; exact Hdot).
    cbn [length Nat.eqb hd nth].
    change ("update(" ++ text) with ("update" ++ String "(" text).
    rewrite PyStrFacts.split_on_first by reflexivity.
    rewrite (PyStrFacts.split_on_absent "(" text) by exact Hparen.
    cbn. now rewrite Hrw.
Qed.

End DottedFacts.

(** ** Concrete runs of the further properties *)

Lemma two_objects_keys_unique : keys_unique two_objects.
Proof.
  unfold keys_unique. cbn.
  repeat constructor; cbn; intuition discriminate.
Qed.

Lemma X2_only_quit_and_EOF_stop_witness :
  ctl (onecmd two_objects "quit") = Stop
  /\ objects (after (onecmd two_objects "quit")) = objects two_objects
  /\ ctl (onecmd two_objects "quit  ") = Stop
  /\ ctl (onecmd two_objects "EOF") = Stop.
Proof.
  split; [reflexivity|].
  destruct (X2_only_quit_and_EOF_stop two_objects "quit") as (H & _ & _).
  destruct (X2_only_quit_and_EOF_stop two_objects "quit  ") as (_ & Hq & _).
  destruct (X2_only_quit_and_EOF_stop two_objects "EOF") as (_ & _ & He).
  split; [exact (proj1 (H eq_refl))|]. split.
  - apply (Hq "" "quit"); reflexivity.
  - apply (He "" "EOF"). reflexivity.
Defined.

Lemma X3_uncaught_is_tokenizer_error_witness :
  ctl (onecmd two_objects ("show " ++ String dquote "User"))
  = Uncaught Shlex.no_closing_quotation
  /\ printed (onecmd two_objects ("show " ++ String dquote "User")) = []
  /\ objects (after (onecmd two_objects ("show " ++ String dquote "User")))
     = objects two_objects.
Proof.
  split; [reflexivity|].
  destruct (X3_uncaught_is_tokenizer_error
              two_objects ("show " ++ String dquote "User")
              Shlex.no_closing_quotation eq_refl) as (_ & Hp & Ho & _).
  split; [exact Hp|exact Ho].
Defined.

Lemma X4_no_quoting_no_crash_witness :
  no_quoting "User.update(1, name, Bob)" = true
  /\ (ctl (onecmd two_objects "User.update(1, name, Bob)") = Continue
      \/ ctl (onecmd two_objects "User.update(1, name, Bob)") = Stop).
Proof.
  split; [reflexivity|].
  apply (X4_no_quoting_no_crash two_objects). reflexivity.
Defined.

Lemma X6_loop_ends_witness :
  ctl (onecmd two_objects "quit") <> Continue
  /\ cmdloop two_objects ["quit"; "destroy User 1"]
     = onecmd two_objects "quit".
Proof.
  assert (H : ctl (onecmd two_objects "quit") <> Continue)
    by (cbn; discriminate).
  split; [exact H|].
  destruct (X6_loop_ends two_objects []) as (_ & _ & Hrest).
  apply Hrest. exact H.
Defined.

Lemma X7_keys_stay_unique_witness :
  keys_unique two_objects
  /\ keys_unique
       (after (cmdloop two_objects
                 ["create User"; "update User 1 name Bob";
                  "destroy BaseModel 2"])).
Proof.
  split; [exact two_objects_keys_unique|].
  apply X7_keys_stay_unique. exact two_objects_keys_unique.
Defined.

Lemma X8_show_prints_keyed_object_witness :
  Shlex.split "User 1" = inr ["User"; "1"]
  /\ dict_get (key_of "User" "1") (objects two_objects) = Some (a_user "1")
  /\ printed (do_show two_objects "User 1") = [Line (obj_str (a_user "1"))].
Proof.
  split; [reflexivity|]. split; [reflexivity|].
  apply (X8_show_prints_keyed_object two_objects "User 1" User "1" []
           (a_user "1") eq_refl two_objects_keys_match
           two_objects_ids_unique eq_refl).
Defined.

Lemma X9_destroy_removes_one_entry_witness :
  Shlex.split "User 1" = inr ["User"; "1"]
  /\ dict_get "User.1" (objects (after (do_destroy two_objects "User 1")))
     = None
  /\ length (objects (after (do_destroy two_objects "User 1"))) = 1
  /\ printed (do_destroy (after (do_destroy two_objects "User 1")) "User 1")
     = [no_instance_found].
Proof.
  split; [reflexivity|].
  assert (Hlen : (2 <= length ["User"; "1"])%nat) by (cbn; lia).
  destruct (X9_destroy_removes_one_entry
              two_objects "User 1" ["User"; "1"] (a_user "1")
              eq_refl eq_refl Hlen two_objects_keys_unique eq_refl)
    as (_ & _ & Hgone & _ & Hl & _ & _ & Hagain).
  split; [exact Hgone|]. split; [|exact Hagain].
  symmetry. exact (eq_add_S 1 _ Hl).
Defined.

Lemma X10_destroy_then_show_witness :
  Shlex.split "User 1" = inr ["User"; "1"]
  /\ printed (do_show (after (do_destroy two_objects "User 1")) "User 1")
     = [no_instance_found].
Proof.
  split; [reflexivity|].
  apply (X10_destroy_then_show two_objects "User 1" User "1" []
           (a_user "1") eq_refl two_objects_keys_match
           two_objects_ids_unique two_objects_keys_unique eq_refl).
Defined.

Lemma X11_update_replaces_in_place_witness :
  Shlex.split "User 1 name Bob" = inr ["User"; "1"; "name"; "Bob"]
  /\ dict_get "User.1"
       (objects (after (do_update two_objects "User 1 name Bob")))
     = Some (mkBag User "1" 0 1 [("name", "Bob")])
  /\ map fst (objects (after (do_update two_objects "User 1 name Bob")))
     = ["User.1"; "BaseModel.2"].
Proof.
  split; [reflexivity|].
  assert (Hlen : (4 <= length ["User"; "1"; "name"; "Bob"])%nat)
    by (cbn; lia).
  destruct (X11_update_replaces_in_place
              two_objects "User 1 name Bob" ["User"; "1"; "name"; "Bob"]
              (a_user "1") (mkBag User "1" 0 0 [("name", "Bob")])
              (mkBag User "1" 0 1 [("name", "Bob")])
              eq_refl eq_refl Hlen eq_refl eq_refl eq_refl)
    as (_ & _ & Hget & _ & Hkeys & _).
  split; [exact Hget|exact Hkeys].
Defined.

Lemma X12_create_appends_witness :
  Shlex.split "Place" = inr ["Place"]
  /\ printed (do_create two_objects "Place") = [Line "x"]
  /\ map fst (objects (after (do_create two_objects "Place")))
     = ["User.1"; "BaseModel.2"; "Place.x"].
Proof.
  split; [reflexivity|].
  destruct (X12_create_appends two_objects "Place" Place []
              (mkBag Place "x" 0 1 []) eq_refl eq_refl eq_refl)
    as (Hp & _ & Ho & _).
  split; [exact Hp|]. now rewrite Ho.
Defined.

Lemma X13_create_then_show_witness :
  Shlex.split "Place x" = inr ["Place"; "x"]
  /\ printed (do_show (after (do_create two_objects "Place")) "Place x")
     = [Line (obj_str (mkBag Place "x" 0 1 []))].
Proof.
  split; [reflexivity|].
  apply (X13_create_then_show two_objects "Place" "Place x" Place [] []
           (mkBag Place "x" 0 1 []) eq_refl eq_refl eq_refl).
  - intros o' [<-|[<-|[]]]; discriminate.
  - reflexivity.
Defined.

Lemma X14_surplus_tokens_ignored_witness :
  Shlex.split "User 1 and more" = inr ["User"; "1"; "and"; "more"]
  /\ do_show two_objects "User 1 and more" = do_show two_objects "User 1"
  /\ do_count two_objects "User 1 and more" = do_count two_objects "User".
Proof.
  split; [reflexivity|].
  destruct (X14_surplus_tokens_ignored
              two_objects "User 1 and more" "User 1" "User" "1" "" ""
              ["and"; "more"] []) as (_ & Hshow & _).
  destruct (X14_surplus_tokens_ignored
              two_objects "User 1 and more" "User" "User" "" "" ""
              ["1"; "and"; "more"] []) as (Hcount & _ & _).
  split.
  - exact (proj1 (Hshow eq_refl eq_refl)).
  - exact (proj2 (proj2 (Hcount eq_refl eq_refl))).
Defined.

Lemma X15_dotted_all_and_count_witness :
  mem "." "User" = false
  /\ default two_objects "User.count(whatever" = do_count two_objects "User"
  /\ printed (default two_objects "User.all") = [ListLine [obj_str (a_user "1")]].
Proof.
  split; [reflexivity|].
  destruct (X15_dotted_all_and_count two_objects "User" "whatever" eq_refl)
    as (_ & Hcount & Hall & _).
  split; [exact Hcount|].
  transitivity (printed (do_all two_objects "User"));
    [exact (f_equal printed Hall)|reflexivity].
Defined.

Lemma X16_dotted_forms_on_plain_words_witness :
  plain_word "User" = true
  /\ default two_objects
       ("User.update(" ++ quoted "1" ++ ", " ++ quoted "name" ++ ", "
                       ++ quoted "Bob" ++ ")")
     = do_update two_objects "User 1 name Bob"
  /\ default two_objects ("User.destroy(" ++ quoted "1" ++ ")")
     = do_destroy two_objects "User 1".
Proof.
  split; [reflexivity|].
  destruct (X16_dotted_forms_on_plain_words two_objects "User" "1" "name"
              "Bob" eq_refl eq_refl eq_refl eq_refl)
    as (_ & Hdestroy & Hupdate & _).
  split; [exact Hupdate|exact Hdestroy].
Defined.

Lemma X17_count_covers_all_witness :
  Shlex.split "BaseModel" = inr ["BaseModel"]
  /\ printed (do_count two_objects "BaseModel") = [IntLine 2]
  /\ printed (do_all two_objects "BaseModel")
     = [ListLine [obj_str (a_base "2")]].
Proof.
  split; [reflexivity|].
  destruct (X17_count_covers_all two_objects "BaseModel" BaseModel []
              eq_refl) as (n & Hn & _).
  split; [|reflexivity].
  rewrite Hn. cbn in Hn. now injection Hn as <-.
Defined.

Lemma X18_update_of_id_keeps_key_witness :
  Shlex.split "User 1 id 7" = inr ["User"; "1"; "id"; "7"]
  /\ dict_get "User.1" (objects (after (do_update two_objects "User 1 id 7")))
     = Some (mkBag User "7" 0 1 [])
  /\ ~ keys_match (after (do_update two_objects "User 1 id 7")).
Proof.
  split; [reflexivity|].
  assert (Hlen : (2 <= length ["id"; "7"])%nat) by (cbn; lia).
  apply (X18_update_of_id_keeps_key two_objects "User 1 id 7" User "1"
           ["id"; "7"] (a_user "1") (mkBag User "7" 0 0 [])
           (mkBag User "7" 0 1 []) eq_refl Hlen eq_refl eq_refl eq_refl).
  discriminate.
Defined.

Lemma X19_dotted_missing_pieces_witness :
  mem "." "User" = false
  /\ printed (default two_objects "User.show")
     = [unknown_syntax "User.show"]
  /\ printed (default two_objects
                ("User.update(" ++ quoted "1" ++ ", " ++ quoted "name" ++ ")"))
     = [unknown_syntax
          ("User.update(" ++ quoted "1" ++ ", " ++ quoted "name" ++ ")")]
  /\ printed (do_update two_objects "User 1 name") = [value_missing].
Proof.
  split; [reflexivity|].
  destruct (X19_dotted_missing_pieces two_objects "User" "show"
              (quoted "1" ++ ", " ++ quoted "name" ++ ")") eq_refl)
    as (Hverb & Hpieces).
  split; [|split; [|reflexivity]].
  - exact (f_equal printed (Hverb (or_introl eq_refl))).
  - assert (Hlen : (length (split_on ","
                              (quoted "1" ++ ", " ++ quoted "name" ++ ")"))
                    < 3)%nat) by (cbn; lia).
    exact (f_equal printed (Hpieces eq_refl eq_refl Hlen)).
Defined.
